(** * Overloads of the Python builtins for staged (graph) execution

    A shallow embedding of
    [tensorflow/python/autograph/operators/py_builtins.py].

    Every overload [abs_], [float_], [int_], [len_], [print_], [range_],
    [enumerate_] classifies its arguments and either delegates to the host
    builtin (the [_py_*] functions) or builds staged operations in the
    current graph (the [_tf_*] functions).  [eval_in_original_context]
    re-runs an evaluation primitive against an ancestor frame.

    Construction of staged operations is modelled as a state-and-error
    monad over a [world] holding the graph built so far and the console. *)

From stdpp Require Import gmap strings list pretty.
From Stdlib Require Import ZArith Floats.SpecFloat.


Local Open Scope Z_scope.

(** ** Values *)

(** Element kinds ([dtypes.*]) that the overloads mention. *)
Inductive dtype : Type :=
| DT_int32 | DT_float32 | DT_string | DT_bool | DT_variant.

Global Instance dtype_eq_dec : EqDecision dtype.
Proof. solve_decision. Defined.

(** [Dimension.value]: a size, or [None] when it is not statically known. *)
Definition Dimension : Type := option Z.

(** [TensorShape]: its [dims], or [None] when the rank itself is unknown. *)
Definition TensorShape : Type := option (list Dimension).

(** Host values, symbolic arrays and the operations that produce them.
    Arguments of operation constructors are host values, because the code
    passes plain numbers (and, in [range_], the sentinel) to them. *)
#[warnings="-register-all"]
Inductive value : Type :=
| VNone
| VBool (b : bool)
| VInt (z : Z)
| VFloat (f : spec_float)
| VStr (s : string)
| VBytes (s : string)
| VList (l : list value)
| VTuple (l : list value)
| VDict (d : gmap string value)
| VRange (start stop step : Z)           (* a host range object *)
| VEnumerate (s start : value)           (* a host enumerate object *)
| VObject (id : nat)                     (* [object()], known by identity *)
| VTensor (t : tensor)                   (* ops.Tensor *)
| VTensorArray (flow : tensor)           (* tensor_array_ops.TensorArray *)
| VDataset (d : node)                    (* dataset_ops.DatasetV2 *)
with tensor : Type :=
| Tensor (t_op : node) (t_dtype : dtype) (t_shape : TensorShape)
with node : Type :=
| NPlaceholder (name : string)
| NConst (v : value) (controls : list node)
| NAbs (x : tensor)
| NCast (x : tensor) (dt : dtype)
| NStringToNumber (x : tensor) (out_type : dtype)
| NShape (x : tensor)
| NRank (x : tensor)
| NGetItem (x : tensor) (i : Z)
| NGreater (x : tensor) (y : value)
| NStringJoin (inputs : list value)
| NAsString (x : tensor)
| NAssert (condition : value) (data : list value)
| NCond (pred : tensor) (true_branch false_branch : value)
| NMaximum (x y : value)
| NRange (args : list value)
| NTensorListLength (x : tensor)
| NTensorArraySize (flow : tensor)
| NPyFunc (f : closure) (args : list value) (use_dummy_return : bool)
| NDatasetEnumerate (d : node) (start : value)
with closure : Type :=
| PrintWrapper (override_kwargs : gmap string value).

Definition t_op (t : tensor) : node := let 'Tensor n _ _ := t in n.
Definition t_dtype (t : tensor) : dtype := let 'Tensor _ d _ := t in d.
Definition t_shape (t : tensor) : TensorShape := let 'Tensor _ _ s := t in s.

(** [UNSPECIFIED = object()]: one module-level object, told apart from every
    other value by identity. *)
Definition UNSPECIFIED : value := VObject 0.

(** [v is UNSPECIFIED] *)
Definition is_UNSPECIFIED (v : value) : bool :=
  match v with
  | VObject O => true
  | _ => false
  end.

(** ** Errors, worlds and the construction monad *)

Inductive exn : Type :=
| ValueError (msg : string)
| NotImplementedError (msg : string)
| AttributeError (msg : string)
| AssertionError (msg : string)
| InvalidArgumentError (msg : string)    (* raised by the engine *)
| IndexError (msg : string)
| TypeError (msg : string)
| OverflowError (msg : string)
| UnicodeDecodeError (msg : string).

Inductive result (A : Type) : Type :=
| Ok (a : A)
| Raise (e : exn).
Arguments Ok {A} a.
Arguments Raise {A} e.

(** One call of the host [print]: positional and keyword arguments. *)
Definition print_call : Type := list value * gmap string value.

(** The default graph (operations in creation order) and the console. *)
Record world : Type := World {
  w_graph : list node;
  w_stdout : list print_call
}.

Definition M (A : Type) : Type := world -> world * result A.

Definition ret {A} (a : A) : M A := fun w => (w, Ok a).
Definition raise {A} (e : exn) : M A := fun w => (w, Raise e).
Definition bind {A B} (m : M A) (k : A -> M B) : M B :=
  fun w => match m w with
           | (w', Ok a) => k a w'
           | (w', Raise e) => (w', Raise e)
           end.

Declare Scope py_scope.
Delimit Scope py_scope with py.
Notation "x <- m ;; k" := (bind m (fun x => k))
  (at level 100, m at next level, right associativity) : py_scope.
Notation "m ;;; k" := (bind m (fun _ => k))
  (at level 100, right associativity) : py_scope.
Local Open Scope py_scope.

(** Adding an operation to the default graph. *)
Definition emit (n : node) : M unit :=
  fun w => (World (w_graph w ++ [n]) (w_stdout w), Ok tt).

Definition new_op (n : node) (dt : dtype) (sh : TensorShape) : M tensor :=
  emit n ;;; ret (Tensor n dt sh).

(** ** Static shapes ([tensor_shape.TensorShape], [Dimension]) *)

(** [sh.ndims] *)
Definition ndims (sh : TensorShape) : option Z :=
  match sh with
  | Some ds => Some (Z.of_nat (length ds))
  | None => None
  end.

(** Truth value of [sh.ndims]: neither [None] nor [0]. *)
Definition ndims_truthy (sh : TensorShape) : bool :=
  match ndims sh with
  | Some n => negb (n =? 0)
  | None => false
  end.

(** [sh.dims[0].value] *)
Definition dims0_value (sh : TensorShape) : result Dimension :=
  match sh with
  | None => Raise (TypeError "'NoneType' object is not subscriptable")
  | Some [] => Raise (IndexError "list index out of range")
  | Some (d :: _) => Ok d
  end.

(** [sh[0]]: a [Dimension]; an unknown one when the rank is unknown. *)
Definition shape_getitem0 (sh : TensorShape) : result Dimension :=
  match sh with
  | None => Ok None
  | Some [] => Raise (IndexError "list index out of range")
  | Some (d :: _) => Ok d
  end.

(** [d == n] on a [Dimension]: [None] when the dimension is unknown. *)
Definition dimension_eq (d : Dimension) (n : Z) : option bool :=
  match d with
  | Some v => Some (v =? n)
  | None => None
  end.

(** Truth value of an optional boolean ([None] is false). *)
Definition truthy (o : option bool) : bool :=
  match o with
  | Some b => b
  | None => false
  end.

(** [d.value is not None] *)
Definition is_not_None (d : Dimension) : bool :=
  match d with
  | Some _ => true
  | None => false
  end.

(** [bool(sh)]: the rank is known. *)
Definition shape_bool (sh : TensorShape) : bool :=
  match sh with
  | Some _ => true
  | None => false
  end.

(** [d.value] as a host value: a plain integer, or [None]. *)
Definition dimension_value (d : Dimension) : value :=
  match d with
  | Some n => VInt n
  | None => VNone
  end.

(** ** Classification predicates *)

(** Modelled from the spec: [tensors.is_tensor_array] (autograph/utils),
    the array-buffer predicate of the classifier. *)
Definition is_tensor_array (v : value) : bool :=
  match v with
  | VTensorArray _ => true
  | _ => false
  end.

(** Modelled from the spec: [tensor_util.is_tensor], the generic
    symbolic-array predicate; symbolic lists are a subset of it. *)
Definition is_tensor (v : value) : bool :=
  match v with
  | VTensor _ => true
  | _ => false
  end.

(** Modelled from the spec: [tensors.is_tensor_list] (autograph/utils), the
    list predicate: a symbolic array whose element kind is [variant] and
    whose static rank is [0] or unknown ([not t.shape.ndims]). *)
Definition is_tensor_list (v : value) : bool :=
  match v with
  | VTensor t =>
      bool_decide (t_dtype t = DT_variant) && negb (ndims_truthy (t_shape t))
  | _ => false
  end.

(** [isinstance(s, dataset_ops.DatasetV2)] *)
Definition is_dataset (v : value) : bool :=
  match v with
  | VDataset _ => true
  | _ => false
  end.

Inductive ValueClassification : Type :=
| Native | SymbolicArrayBuffer | SymbolicList | SymbolicArray
| DeferredSequenceSource.

(** The ordered predicate chain; the first match wins. *)
Definition classify (v : value) : ValueClassification :=
  if is_tensor_array v then SymbolicArrayBuffer
  else if is_tensor_list v then SymbolicList
  else if is_tensor v then SymbolicArray
  else if is_dataset v then DeferredSequenceSource
  else Native.

(** ** Constructors of staged operations

    Modelled from the spec: the operation library ([math_ops],
    [array_ops], [gen_parsing_ops], [gen_string_ops], [control_flow_ops],
    [list_ops], [py_func]) is a set of constructors that record the
    requested operation in the graph and hand back a symbolic handle.
    The staged absolute value and the staged range first pass a verdict on
    their operands, and add nothing when they refuse them. *)

Definition value_dtype (v : value) : dtype :=
  match v with
  | VTensor t => t_dtype t
  | VFloat _ => DT_float32
  | VStr _ | VBytes _ => DT_string
  | VBool _ => DT_bool
  | _ => DT_int32
  end.

Definition value_shape (v : value) : TensorShape :=
  match v with
  | VTensor t => t_shape t
  | VInt _ | VFloat _ | VBool _ | VStr _ | VBytes _ => Some []
  | _ => None
  end.

(** The element kinds a staged arithmetic operation accepts. *)
Definition numeric (dt : dtype) : bool :=
  match dt with
  | DT_int32 | DT_float32 => true
  | DT_string | DT_bool | DT_variant => false
  end.

(** The verdict of the staged absolute value on its operand, reached
    before anything is added to the graph. *)
Definition abs_rejects (x : tensor) : option exn :=
  if numeric (t_dtype x) then None
  else Some (TypeError
               "Value passed to parameter 'x' has a DataType not allowed").

Definition math_ops_abs (x : tensor) : M tensor :=
  match abs_rejects x with
  | Some e => raise e
  | None => new_op (NAbs x) (t_dtype x) (t_shape x)
  end.

Definition math_ops_cast (x : tensor) (dt : dtype) : M tensor :=
  new_op (NCast x dt) dt (t_shape x).

Definition string_to_number (x : tensor) (out_type : dtype) : M tensor :=
  new_op (NStringToNumber x out_type) out_type (t_shape x).

(** The shape query: a vector with one entry per dimension, so its own
    static shape is [(rank,)], or [(None,)] when the rank is unknown. *)
Definition array_ops_shape (s : tensor) : M tensor :=
  new_op (NShape s) DT_int32 (Some [ndims (t_shape s)]).

Definition array_ops_rank (s : tensor) : M tensor :=
  new_op (NRank s) DT_int32 (Some []).

(** [t[i]] on a symbolic array. *)
Definition tensor_getitem (t : tensor) (i : Z) : M tensor :=
  new_op (NGetItem t i) (t_dtype t)
         (match t_shape t with
          | Some (_ :: ds) => Some ds
          | _ => None
          end).

(** [t > y] *)
Definition tensor_gt (t : tensor) (y : value) : M tensor :=
  new_op (NGreater t y) DT_bool (t_shape t).

Definition string_join (inputs : list value) : M tensor :=
  new_op (NStringJoin inputs) DT_string (Some []).

Definition as_string (x : tensor) : M tensor :=
  new_op (NAsString x) DT_string (t_shape x).

(** [control_flow_ops.Assert]: yields an operation, not an array. *)
Definition control_flow_ops_Assert (condition : value) (data : list value)
  : M node :=
  emit (NAssert condition data) ;;; ret (NAssert condition data).

(** [constant_op.constant] under [ops.control_dependencies(controls)]. *)
Definition constant_under (controls : list node) (v : value) (dt : dtype)
  : M tensor :=
  new_op (NConst v controls) dt (value_shape v).

(** [control_flow_ops.cond]: both branches are built, in order. *)
Definition control_flow_ops_cond (pred : tensor)
    (true_fn false_fn : M tensor) : M tensor :=
  t <- true_fn ;;
  f <- false_fn ;;
  new_op (NCond pred (VTensor t) (VTensor f)) (t_dtype t)
         (if bool_decide (t_shape t = t_shape f) then t_shape t else None).

(** The handle [math_ops.maximum(x, y)] returns. *)
Definition maximum_handle (x y : value) : tensor :=
  Tensor (NMaximum x y)
         (if is_tensor x then value_dtype x else value_dtype y)
         (match value_shape x, value_shape y with
          | Some [], sh => sh
          | sh, Some [] => sh
          | shx, shy => if bool_decide (shx = shy) then shx else None
          end).

Definition math_ops_maximum (x y : value) : M tensor :=
  emit (NMaximum x y) ;;; ret (maximum_handle x y).

(** The handle that [math_ops.range] returns for its arguments. *)
Definition range_handle (args : list value) : tensor :=
  Tensor (NRange args)
         (if existsb (fun a => bool_decide (value_dtype a = DT_float32)) args
          then DT_float32 else DT_int32)
         (Some [None]).

(** What [ops.convert_to_tensor] turns into a number operand: a host
    number or a symbolic array.  The sentinel is not among them. *)
Definition number_like (v : value) : bool :=
  match v with
  | VInt _ | VFloat _ | VTensor _ => true
  | _ => false
  end.

(** The value of an operand when it is a constant of the graph. *)
Definition static_number (v : value) : option spec_float :=
  match v with
  | VInt z | VTensor (Tensor (NConst (VInt z) _) _ _) =>
      Some (binary_normalize 53 1024 z 0 false)
  | VFloat f | VTensor (Tensor (NConst (VFloat f) _) _ _) => Some f
  | _ => None
  end.

(** [start], [limit] and [delta] of a staged range: [range(limit)] starts
    at [0], and [delta] defaults to [1]. *)
Definition range_bounds (args : list value)
  : option (value * value * value) :=
  match args with
  | [limit] => Some (VInt 0, limit, VInt 1)
  | [start; limit] => Some (start, limit, VInt 1)
  | [start; limit; delta] => Some (start, limit, delta)
  | _ => None
  end.

(** The verdict of the staged range on its operands, reached before
    anything is added to the graph.  An operand that is no number is
    refused; when the three bounds are constants, a zero [delta] and
    bounds on the wrong side of each other are refused as well: for static
    inputs the staged range errors out at construction instead of
    yielding an empty array. *)
Definition range_rejects (args : list value) : option exn :=
  if negb (forallb number_like args)
  then Some (TypeError "Failed to convert object to Tensor")
  else
    match range_bounds args with
    | None => Some (TypeError "range() takes from 1 to 3 positional arguments")
    | Some (start, limit, delta) =>
        match static_number start, static_number limit,
              static_number delta with
        | Some s, Some l, Some d =>
            if SFeqb d (S754_zero false)
            then Some (ValueError "Requires delta != 0")
            else if SFltb (S754_zero false) d && SFltb l s
            then Some (ValueError "Requires start <= limit when delta > 0")
            else if SFltb d (S754_zero false) && SFltb s l
            then Some (ValueError "Requires start >= limit when delta < 0")
            else None
        | _, _, _ => None
        end
    end.

Definition math_ops_range (args : list value) : M tensor :=
  match range_rejects args with
  | Some e => raise e
  | None => emit (NRange args) ;;; ret (range_handle args)
  end.

Definition tensor_list_length (s : tensor) : M tensor :=
  new_op (NTensorListLength s) DT_int32 (Some []).

(** [s.size()] on an array buffer. *)
Definition tensor_array_size (flow : tensor) : M tensor :=
  new_op (NTensorArraySize flow) DT_int32 (Some []).

(** The handle of a staged callback: nothing is known of its shape. *)
Definition py_func_handle (f : closure) (args : list value)
    (use_dummy_return : bool) : tensor :=
  Tensor (NPyFunc f args use_dummy_return) DT_int32 None.

(** [py_func.wrap_py_func(f, None, args, use_dummy_return=True)] *)
Definition wrap_py_func (f : closure) (args : list value)
    (use_dummy_return : bool) : M tensor :=
  emit (NPyFunc f args use_dummy_return) ;;;
  ret (py_func_handle f args use_dummy_return).

(** [d.enumerate(start)] on a dataset. *)
Definition dataset_enumerate (d : node) (start : value) : value :=
  VDataset (NDatasetEnumerate d start).

(** ** The host interpreter *)

(** The original builtins, and the two host services the print wrapper
    uses.  Every statement about an overload holds for any host. *)
Record Host : Type := {
  builtin_abs : value -> M value;
  builtin_float : value -> M value;
  builtin_int : list value -> M value;
  builtin_len : value -> M value;
  builtin_print : list value -> gmap string value -> M unit;
  builtin_range : list value -> M value;
  builtin_enumerate : value -> value -> M value;
  numpy : value -> M value;              (* [v.numpy()] *)
  decode_utf8 : string -> M value        (* [v.decode('utf-8')] *)
}.

(** Attribute access that only a symbolic array supports
    ([x.dtype], [s.shape]). *)
Definition as_tensor (v : value) : M tensor :=
  match v with
  | VTensor t => ret t
  | _ => raise (AttributeError "object has no attribute 'dtype' or 'shape'")
  end.

Definition lift {A} (r : result A) : M A := fun w => (w, r).

Definition fmapM {A B} (f : A -> B) (m : M A) : M B :=
  a <- m ;; ret (f a).

Fixpoint mapM {A B} (f : A -> M B) (l : list A) : M (list B) :=
  match l with
  | [] => ret []
  | a :: l' => b <- f a ;; bs <- mapM f l' ;; ret (b :: bs)
  end.

(** ** Text of values, as it appears in error messages *)

Definition dtype_str (dt : dtype) : string :=
  match dt with
  | DT_int32 => "int32" | DT_float32 => "float32" | DT_string => "string"
  | DT_bool => "bool" | DT_variant => "variant"
  end.

Definition dimension_str (d : Dimension) : string :=
  match d with
  | Some n => pretty n
  | None => "?"
  end.

(** A tuple as text: [()], [(a,)], [(a, b)]. *)
Definition tuple_str (items : list string) : string :=
  match items with
  | [x] => "(" +:+ x +:+ ",)"
  | _ => "(" +:+ String.concat ", " items +:+ ")"
  end.

Definition shape_str (sh : TensorShape) : string :=
  match sh with
  | Some ds => tuple_str (dimension_str <$> ds)
  | None => "<unknown>"
  end.

Definition node_name (n : node) : string :=
  match n with
  | NPlaceholder name => name
  | NConst _ _ => "Const"
  | NAbs _ => "Abs"
  | NCast _ _ => "Cast"
  | NStringToNumber _ _ => "StringToNumber"
  | NShape _ => "Shape"
  | NRank _ => "Rank"
  | NGetItem _ _ => "strided_slice"
  | NGreater _ _ => "Greater"
  | NStringJoin _ => "StringJoin"
  | NAsString _ => "AsString"
  | NAssert _ _ => "Assert"
  | NCond _ _ _ => "cond/Merge"
  | NMaximum _ _ => "Maximum"
  | NRange _ => "range"
  | NTensorListLength _ => "TensorListLength"
  | NTensorArraySize _ => "TensorArraySize"
  | NPyFunc _ _ _ => "PyFunc"
  | NDatasetEnumerate _ _ => "EnumerateDataset"
  end.

(** The double-quote character, as text. *)
Definition dquote : string := String (Ascii.ascii_of_nat 34) EmptyString.

(** [str(t)] for a symbolic array. *)
Definition tensor_str (t : tensor) : string :=
  "Tensor(" +:+ dquote +:+ node_name (t_op t) +:+ ":0" +:+ dquote
  +:+ ", shape=" +:+ shape_str (t_shape t)
  +:+ ", dtype=" +:+ dtype_str (t_dtype t) +:+ ")".

(** [repr] of a text key (keys free of quotes and escapes). *)
Definition str_repr (s : string) : string := "'" +:+ s +:+ "'".

(** [str(v)], as [format] inserts it in a message. *)
Definition value_str (v : value) : string :=
  match v with
  | VNone => "None"
  | VBool true => "True"
  | VBool false => "False"
  | VInt z => pretty z
  | VStr s => s
  | VTensor t => tensor_str t
  | VObject _ => "<object object>"
  | _ => "<value>"
  end.

(** ** Host comparisons *)

(** [f == n] for a float [f] and an integer [n], exactly. *)
Definition float_eq_Z (f : spec_float) (n : Z) : bool :=
  match f with
  | S754_zero _ => n =? 0
  | S754_finite s m e =>
      let sm := if s then Z.neg m else Z.pos m in
      if 0 <=? e then sm * 2 ^ e =? n else sm =? n * 2 ^ (- e)
  | _ => false
  end.

(** [v == n] for a host value [v] and an integer literal [n]. *)
Definition py_eq_int (v : value) (n : Z) : bool :=
  match v with
  | VInt z => z =? n
  | VBool b => (if b then 1 else 0) =? n
  | VFloat f => float_eq_Z f n
  | _ => false
  end.

(** [base in (10, UNSPECIFIED)] *)
Definition in_10_UNSPECIFIED (base : value) : bool :=
  py_eq_int base 10 || is_UNSPECIFIED base.

(** ** The overloads *)

Section Overloads.
Context (H : Host).

(** *** abs_ *)

Definition _tf_abs (x : value) : M value :=
  t <- as_tensor x ;; fmapM VTensor (math_ops_abs t).

Definition _py_abs (x : value) : M value := builtin_abs H x.

Definition abs_ (x : value) : M value :=
  if is_tensor x then _tf_abs x else _py_abs x.

(** *** float_ *)

Definition _tf_float (x : value) : M value :=
  t <- as_tensor x ;;
  if bool_decide (t_dtype t = DT_string)
  then fmapM VTensor (string_to_number t DT_float32)
  else fmapM VTensor (math_ops_cast t DT_float32).

Definition _py_float (x : value) : M value := builtin_float H x.

(** [float_(x=0)]; a call without argument is [float_ (VInt 0)]. *)
Definition float_ (x : value) : M value :=
  if is_tensor x then _tf_float x else _py_float x.

(** *** int_ *)

Definition _tf_int (x base : value) : M value :=
  if negb (in_10_UNSPECIFIED base)
  then raise (NotImplementedError
                ("base " +:+ value_str base +:+ " not supported for int"))
  else
    t <- as_tensor x ;;
    if bool_decide (t_dtype t = DT_string)
    then fmapM VTensor (string_to_number t DT_int32)
    else fmapM VTensor (math_ops_cast t DT_int32).

Definition _py_int (x base : value) : M value :=
  if is_UNSPECIFIED base then builtin_int H [x] else builtin_int H [x; base].

(** [int_(x=0, base=UNSPECIFIED)] *)
Definition int_ (x base : value) : M value :=
  if is_tensor x then _tf_int x base else _py_int x base.

(** *** len_ *)

Definition _tf_tensor_array_len (s : value) : M value :=
  match s with
  | VTensorArray flow => fmapM VTensor (tensor_array_size flow)
  | _ => raise (AttributeError "object has no attribute 'size'")
  end.

Definition _tf_tensor_list_len (s : value) : M value :=
  t <- as_tensor s ;; fmapM VTensor (tensor_list_length t).

(** The false branch of the staged conditional of [_tf_tensor_len]. *)
Definition raise_zero_rank_error (rank : tensor) : M tensor :=
  r <- as_string rank ;;
  msg <- string_join [VStr "len requires non-zero rank, got "; VTensor r] ;;
  a <- control_flow_ops_Assert (VBool false) [VTensor msg] ;;
  constant_under [a] (VInt 0) DT_int32.

Definition _tf_tensor_len (s : value) : M value :=
  t <- as_tensor s ;;
  (* Statically shaped tensors: length is known ahead of time. *)
  known <- (if ndims_truthy (t_shape t)
            then d <- lift (dims0_value (t_shape t)) ;; ret (is_not_None d)
            else ret false) ;;
  if known
  then d <- lift (dims0_value (t_shape t)) ;; ret (dimension_value d)
  else
    (* Static shape of unknown dimensions: use dynamic shape but
       statically check that it's a scalar. *)
    shape <- array_ops_shape t ;;
    if negb (shape_bool (t_shape shape))
    then raise (AssertionError
                  ("shape tensor of zero size? " +:+ tensor_str shape))
    else
      d0 <- lift (shape_getitem0 (t_shape shape)) ;;
      if truthy (dimension_eq d0 0)
      then raise (ValueError
                    ("len requires a non-scalar tensor, got one of shape "
                     +:+ tensor_str shape))
      else
        r0 <- lift (dims0_value (t_shape shape)) ;;
        if is_not_None r0
        then
          shape' <- array_ops_shape t ;;
          fmapM VTensor (tensor_getitem shape' 0)
        else
          (* Fully dynamic shape: use ops. *)
          rank <- array_ops_rank t ;;
          pred <- tensor_gt rank (VInt 0) ;;
          fmapM VTensor
            (control_flow_ops_cond pred
               (shape' <- array_ops_shape t ;; tensor_getitem shape' 0)
               (raise_zero_rank_error rank)).

Definition _py_len (s : value) : M value := builtin_len H s.

Definition len_ (s : value) : M value :=
  if is_tensor_array s then _tf_tensor_array_len s
  else if is_tensor_list s then _tf_tensor_list_len s
  else if is_tensor s then _tf_tensor_len s
  else _py_len s.

(** *** print_ *)

(** [('sep', 'end', 'file', 'flush')] *)
Definition recognized_kwargs : gset string :=
  {[ "sep"; "end"; "file"; "flush" ]}.

Definition _py_print (objects : list value) (kwargs : gmap string value)
  : M value :=
  builtin_print H objects kwargs ;;; ret VNone.

(** [{k: v for k, v in kwargs.items() if v is not UNSPECIFIED}], then the
    default for ['flush']. *)
Definition override_kwargs_of (kwargs : gmap string value)
  : gmap string value :=
  let override_kwargs :=
    filter (fun kv => is_UNSPECIFIED kv.2 = false) kwargs in
  if bool_decide ("flush" ∈ dom override_kwargs)
  then override_kwargs
  else <["flush" := VBool true]> override_kwargs.

(** [tuple(v.numpy() if tensor_util.is_tensor(v) else v for v in vals)] *)
Definition materialise_all (vals : list value) : M (list value) :=
  mapM (fun v => if is_tensor v then numpy H v else ret v) vals.

(** [tuple(v.decode('utf-8') if isinstance(v, bytes) else v for v in vals)] *)
Definition decode_all (vals : list value) : M (list value) :=
  mapM (fun v => match v with
                 | VBytes b => decode_utf8 H b
                 | _ => ret v
                 end) vals.

(** The body of a wrapped callback, run by the engine on [vals]; [PY3] is
    [six.PY3]. *)
Definition print_wrapper (PY3 : bool) (override_kwargs : gmap string value)
    (vals : list value) : M value :=
  vals <- materialise_all vals ;;
  vals <- (if PY3 then decode_all vals else ret vals) ;;
  builtin_print H vals override_kwargs ;;; ret VNone.

Definition run_closure (PY3 : bool) (f : closure) (vals : list value)
  : M value :=
  match f with
  | PrintWrapper override_kwargs => print_wrapper PY3 override_kwargs vals
  end.

Definition _tf_py_func_print (objects : list value)
    (kwargs : gmap string value) : M value :=
  fmapM VTensor
    (wrap_py_func (PrintWrapper (override_kwargs_of kwargs)) objects true).

Definition print_ (objects : list value) (kwargs : gmap string value)
  : M value :=
  let unknown_kwargs := elements (dom kwargs ∖ recognized_kwargs) in
  if negb (bool_decide (unknown_kwargs = []))
  then raise (ValueError ("invalid keyword arguments: "
                          +:+ tuple_str (str_repr <$> unknown_kwargs)))
  else if existsb is_tensor objects
  then _tf_py_func_print objects kwargs
  else _py_print objects kwargs.

(** *** range_ *)

Definition _tf_range (start_or_stop stop step : value) : M value :=
  if negb (is_UNSPECIFIED step)
  then fmapM VTensor (math_ops_range [start_or_stop; stop; step])
  else if negb (is_UNSPECIFIED stop)
  then
    stop <- math_ops_maximum start_or_stop stop ;;
    fmapM VTensor (math_ops_range [start_or_stop; VTensor stop])
  else
    start_or_stop <- math_ops_maximum start_or_stop (VInt 0) ;;
    fmapM VTensor (math_ops_range [VTensor start_or_stop]).

Definition _py_range (start_or_stop stop step : value) : M value :=
  if negb (is_UNSPECIFIED step)
  then builtin_range H [start_or_stop; stop; step]
  else if negb (is_UNSPECIFIED stop)
  then builtin_range H [start_or_stop; stop]
  else builtin_range H [start_or_stop].

(** [range_(start_or_stop, stop=UNSPECIFIED, step=UNSPECIFIED)] *)
Definition range_ (start_or_stop stop step : value) : M value :=
  if existsb is_tensor [start_or_stop; stop; step]
  then _tf_range start_or_stop stop step
  else _py_range start_or_stop stop step.

(** *** enumerate_ *)

Definition _tf_dataset_enumerate (s start : value) : M value :=
  match s with
  | VDataset d => ret (dataset_enumerate d start)
  | _ => raise (AttributeError "object has no attribute 'enumerate'")
  end.

Definition _py_enumerate (s start : value) : M value :=
  builtin_enumerate H s start.

(** [enumerate_(s, start=0)] *)
Definition enumerate_ (s start : value) : M value :=
  if is_dataset s then _tf_dataset_enumerate s start
  else _py_enumerate s start.

End Overloads.

(** ** eval_in_original_context *)

(** A frame of the call stack: its bindings and the frame that called it
    ([None] at the bottom of the stack). *)
#[warnings="-register-all"]
Inductive frame : Type :=
| Frame (f_globals f_locals : value) (f_back : option frame).

(** [ctx_frame.f_back], [.f_globals], [.f_locals]; [ctx_frame] is [None]
    once the walk has left the stack. *)
Definition get_f_back (ctx_frame : option frame) : M (option frame) :=
  match ctx_frame with
  | Some (Frame _ _ back) => ret back
  | None => raise (AttributeError
                     "'NoneType' object has no attribute 'f_back'")
  end.

Definition get_f_globals (ctx_frame : option frame) : M value :=
  match ctx_frame with
  | Some (Frame g _ _) => ret g
  | None => raise (AttributeError
                     "'NoneType' object has no attribute 'f_globals'")
  end.

Definition get_f_locals (ctx_frame : option frame) : M value :=
  match ctx_frame with
  | Some (Frame _ l _) => ret l
  | None => raise (AttributeError
                     "'NoneType' object has no attribute 'f_locals'")
  end.

(** [for _ in range(n): ctx_frame = ctx_frame.f_back] *)
Fixpoint walk_back (n : nat) (ctx_frame : option frame) : M (option frame) :=
  match n with
  | O => ret ctx_frame
  | S n' => back <- get_f_back ctx_frame ;; walk_back n' back
  end.

(** [args[i]] on a tuple. *)
Definition tuple_getitem (args : list value) (i : nat) : M value :=
  match args !! i with
  | Some v => ret v
  | None => raise (IndexError "tuple index out of range")
  end.

(** [currentframe] is the frame of this very call, as
    [inspect.currentframe()] returns it; [f] is the evaluation primitive,
    applied to its positional arguments. *)
Definition eval_in_original_context (f : list value -> M value)
    (args : list value) (caller_level_delta : Z) (currentframe : frame)
  : M value :=
  ctx_frame <- walk_back (Z.to_nat (caller_level_delta + 1))
                         (Some currentframe) ;;
  a0 <- tuple_getitem args 0 ;;
  a1 <- (if Z.of_nat (length args) <? 2
         then get_f_globals ctx_frame else tuple_getitem args 1) ;;
  a2 <- (if Z.of_nat (length args) <? 3
         then get_f_locals ctx_frame else tuple_getitem args 2) ;;
  f [a0; a1; a2].

(** Number of frames above a frame (its callers). *)
Fixpoint frames_above (fr : frame) : nat :=
  match fr with
  | Frame _ _ None => O
  | Frame _ _ (Some back) => S (frames_above back)
  end.

(** ** Execution of staged values

    Modelled from the spec: the staged-execution engine, for the operations
    that length resolution and range construction build.  [runtime_shape]
    is the shape the engine observes for an array when the graph runs.
    [None] marks an operation this engine does not cover. *)

Section Engine.
Variable runtime_shape : tensor -> list Z.

Definition exec_result : Type := option (result value).

(** Run [k] on the integer a sub-computation produced. *)
Definition on_int (r : exec_result) (k : Z -> exec_result) : exec_result :=
  match r with
  | Some (Ok (VInt z)) => k z
  | Some (Ok _) => None
  | other => other
  end.

(** The text the engine prints for one datum of a failed assertion. *)
Definition datum_str (r : exec_result) : option string :=
  match r with
  | Some (Ok (VStr s)) => Some s
  | Some (Ok (VInt z)) => Some (pretty z)
  | _ => None
  end.

Fixpoint run_node (n : node) : exec_result :=
  match n with
  | NConst v controls =>
      (fix after (cs : list node) : exec_result :=
         match cs with
         | [] => Some (Ok v)
         | c :: cs' =>
             match run_node c with
             | Some (Ok _) => after cs'
             | other => other
             end
         end) controls
  | NShape x => Some (Ok (VList (VInt <$> runtime_shape x)))
  | NRank x => Some (Ok (VInt (Z.of_nat (length (runtime_shape x)))))
  | NGetItem x i =>
      match run_tensor x with
      | Some (Ok (VList l)) =>
          match l !! Z.to_nat i with
          | Some v => Some (Ok v)
          | None => Some (Raise (IndexError "slice index out of bounds"))
          end
      | Some (Ok _) => None
      | other => other
      end
  | NGreater x y =>
      on_int (run_tensor x) (fun a =>
      on_int (run_value y) (fun b => Some (Ok (VBool (b <? a)))))
  | NAsString x =>
      on_int (run_tensor x) (fun a => Some (Ok (VStr (pretty a))))
  | NStringJoin inputs =>
      (fix cat (l : list value) (acc : string) : exec_result :=
         match l with
         | [] => Some (Ok (VStr acc))
         | v :: l' =>
             match run_value v with
             | Some (Ok (VStr s)) => cat l' (acc +:+ s)
             | Some (Ok _) => None
             | other => other
             end
         end) inputs ""
  | NAssert condition data =>
      match run_value condition with
      | Some (Ok (VBool true)) => Some (Ok VNone)
      | Some (Ok (VBool false)) =>
          (fix show (l : list value) (acc : list string) : exec_result :=
             match l with
             | [] => Some (Raise (InvalidArgumentError
                       ("assertion failed: "
                        +:+ String.concat " "
                              ((fun s => "[" +:+ s +:+ "]") <$> acc))))
             | v :: l' =>
                 match datum_str (run_value v) with
                 | Some s => show l' (acc ++ [s])%list
                 | None => None
                 end
             end) data []
      | Some (Ok _) => None
      | other => other
      end
  | NCond pred true_branch false_branch =>
      match run_tensor pred with
      | Some (Ok (VBool true)) => run_value true_branch
      | Some (Ok (VBool false)) => run_value false_branch
      | Some (Ok _) => None
      | other => other
      end
  | NMaximum x y =>
      on_int (run_value x) (fun a =>
      on_int (run_value y) (fun b => Some (Ok (VInt (Z.max a b)))))
  | _ => None
  end
with run_tensor (t : tensor) : exec_result :=
  match t with
  | Tensor n _ _ => run_node n
  end
with run_value (v : value) : exec_result :=
  match v with
  | VTensor t => run_tensor t
  | VInt _ | VBool _ | VStr _ => Some (Ok v)
  | _ => None
  end.

End Engine.

(** ** A small host

    A concrete host for running the overloads on examples.  It covers
    integers, booleans, floats, ASCII text and the builtin sequences, with
    the results and errors of the reference interpreter on them; a call
    outside this fragment is answered by [unsupported]. *)

Module SmallHost.

Definition unsupported {A} : M A :=
  raise (TypeError "outside the small host").

Definition float_of_Z (z : Z) : M value :=
  match binary_normalize 53 1024 z 0 false with
  | S754_infinity _ =>
      raise (OverflowError "int too large to convert to float")
  | f => ret (VFloat f)
  end.

Definition Z_of_bool (b : bool) : Z := if b then 1 else 0.

Definition abs (x : value) : M value :=
  match x with
  | VInt z => ret (VInt (Z.abs z))
  | VBool b => ret (VInt (Z_of_bool b))
  | VFloat f => ret (VFloat (SFabs f))
  | VTensor _ | VTensorArray _ | VDataset _ => unsupported
  | _ => raise (TypeError "bad operand type for abs()")
  end.

Definition float (x : value) : M value :=
  match x with
  | VInt z => float_of_Z z
  | VBool b => float_of_Z (Z_of_bool b)
  | VFloat f => ret (VFloat f)
  | VStr _ | VBytes _ | VTensor _ | VTensorArray _ | VDataset _ =>
      unsupported
  | _ => raise (TypeError "float() argument must be a string or a number")
  end.

(** Truncation of a float towards zero. *)
Definition trunc (f : spec_float) : M value :=
  match f with
  | S754_zero _ => ret (VInt 0)
  | S754_finite s m e =>
      let a := if 0 <=? e then Z.pos m * 2 ^ e else Z.pos m / 2 ^ (- e) in
      ret (VInt (if s then - a else a))
  | S754_infinity _ =>
      raise (OverflowError "cannot convert float infinity to integer")
  | S754_nan => raise (ValueError "cannot convert float NaN to integer")
  end.

Definition int (args : list value) : M value :=
  match args with
  | [VInt z] => ret (VInt z)
  | [VBool b] => ret (VInt (Z_of_bool b))
  | [VFloat f] => trunc f
  | [VStr _] | [VBytes _] | [VStr _; _] | [VBytes _; _] => unsupported
  | [VTensor _] | [VTensorArray _] | [VDataset _] => unsupported
  | [_] => raise (TypeError "int() argument must be a string or a number")
  | [_; _] => raise (TypeError
                       "int() can't convert non-string with explicit base")
  | _ => raise (TypeError "int() takes at most 2 arguments")
  end.

(** [len(range(start, stop, step))] *)
Definition range_len (start stop step : Z) : Z :=
  if (0 <? step) && (start <? stop) then (stop - start - 1) / step + 1
  else if (step <? 0) && (stop <? start)
       then (start - stop - 1) / (- step) + 1
       else 0.

Definition len (s : value) : M value :=
  match s with
  | VStr t | VBytes t => ret (VInt (Z.of_nat (String.length t)))
  | VList l | VTuple l => ret (VInt (Z.of_nat (length l)))
  | VDict d => ret (VInt (Z.of_nat (size d)))
  | VRange a b c => ret (VInt (range_len a b c))
  | _ => raise (TypeError "object has no len()")
  end.

(** [operator.index] on an argument of [range] or [enumerate]. *)
Definition index (v : value) : M Z :=
  match v with
  | VInt z => ret z
  | VBool b => ret (Z_of_bool b)
  | _ => raise (TypeError "object cannot be interpreted as an integer")
  end.

Definition range (args : list value) : M value :=
  match args with
  | [stop] => b <- index stop ;; ret (VRange 0 b 1)
  | [start; stop] =>
      a <- index start ;; b <- index stop ;; ret (VRange a b 1)
  | [start; stop; step] =>
      a <- index start ;; b <- index stop ;; c <- index step ;;
      if c =? 0 then raise (ValueError "range() arg 3 must not be zero")
      else ret (VRange a b c)
  | _ => raise (TypeError "range expected 1 to 3 arguments")
  end.

Definition enumerate (s start : value) : M value :=
  match s with
  | VStr _ | VBytes _ | VList _ | VTuple _ | VDict _ | VRange _ _ _
  | VEnumerate _ _ =>
      i <- index start ;; ret (VEnumerate s (VInt i))
  | VTensor _ | VTensorArray _ | VDataset _ => unsupported
  | _ => raise (TypeError "object is not iterable")
  end.

(** [sep] and [end] must be [None] or text. *)
Definition text_or_None (o : option value) : bool :=
  match o with
  | None | Some VNone | Some (VStr _) => true
  | Some _ => false
  end.

(** [print] records its call on the console. *)
Definition print (objects : list value) (kwargs : gmap string value)
  : M unit :=
  if negb (bool_decide (dom kwargs ⊆ ({[ "sep"; "end"; "file"; "flush" ]}
                                       : gset string)))
  then raise (TypeError "invalid keyword argument for print()")
  else if negb (text_or_None (kwargs !! "sep")
                && text_or_None (kwargs !! "end"))
  then raise (TypeError "sep and end must be None or a string")
  else fun w => (World (w_graph w) (w_stdout w ++ [(objects, kwargs)]),
                 Ok tt).

(** Materialisation of a constant. *)
Definition materialise (v : value) : M value :=
  match v with
  | VTensor (Tensor (NConst c _) _ _) => ret c
  | _ => unsupported
  end.

Fixpoint is_ascii (s : string) : bool :=
  match s with
  | EmptyString => true
  | String a s' => (Ascii.N_of_ascii a <? 128)%N && is_ascii s'
  end.

Definition decode (b : string) : M value :=
  if is_ascii b then ret (VStr b) else unsupported.

Definition host : Host :=
  {| builtin_abs := abs;
     builtin_float := float;
     builtin_int := int;
     builtin_len := len;
     builtin_print := print;
     builtin_range := range;
     builtin_enumerate := enumerate;
     numpy := materialise;
     decode_utf8 := decode |}.

End SmallHost.

(** ** overload_of and the dispatch registry *)

(** The builtins the registry names. *)
Inductive builtin : Type :=
| B_abs | B_float | B_int | B_len | B_print | B_range | B_enumerate
| B_xrange.

(** The overloads of this module: [abs_], [float_], ... *)
Inductive overload : Type :=
| O_abs | O_float | O_int | O_len | O_print | O_range | O_enumerate.

(** A call target that compares by identity, as functions, builtins and
    classes do: a builtin, an overload, or another such callable, known by
    its [__name__] and its identity. *)
Inductive callable : Type :=
| CBuiltin (b : builtin)
| COverload (o : overload)
| CFunction (name : string) (id : nat).

Global Instance builtin_eq_dec : EqDecision builtin.
Proof. solve_decision. Defined.

Global Instance overload_eq_dec : EqDecision overload.
Proof. solve_decision. Defined.

Global Instance callable_eq_dec : EqDecision callable.
Proof. solve_decision. Defined.

Definition builtin_name (b : builtin) : string :=
  match b with
  | B_abs => "abs" | B_float => "float" | B_int => "int" | B_len => "len"
  | B_print => "print" | B_range => "range" | B_enumerate => "enumerate"
  | B_xrange => "xrange"
  end.

Definition overload_name (o : overload) : string :=
  match o with
  | O_abs => "abs_" | O_float => "float_" | O_int => "int_"
  | O_len => "len_" | O_print => "print_" | O_range => "range_"
  | O_enumerate => "enumerate_"
  end.

(** [f.__name__] *)
Definition callable_name (f : callable) : string :=
  match f with
  | CBuiltin b => builtin_name b
  | COverload o => overload_name o
  | CFunction name _ => name
  end.

(** [SUPPORTED_BUILTINS], with [xrange] appended under [six.PY2]. *)
Definition SUPPORTED_BUILTINS (PY2 : bool) : list callable :=
  [CBuiltin B_abs; CBuiltin B_float; CBuiltin B_int; CBuiltin B_len;
   CBuiltin B_print; CBuiltin B_range; CBuiltin B_enumerate]
  ++ (if PY2 then [CBuiltin B_xrange] else []).

Definition BUILTIN_FUINCTIONS_MAP : gmap string overload :=
  list_to_map
    [("abs", O_abs); ("float", O_float); ("int", O_int); ("len", O_len);
     ("print", O_print); ("range", O_range); ("xrange", O_range);
     ("enumerate", O_enumerate)].

(** The outcome of a dictionary subscript. *)
Inductive subscript (A : Type) : Type :=
| Found (a : A)
| KeyError (key : string).
Arguments Found {A} a.
Arguments KeyError {A} key.

Definition overload_of (PY2 : bool) (f : callable) : subscript callable :=
  if bool_decide (f ∈ SUPPORTED_BUILTINS PY2)
  then match BUILTIN_FUINCTIONS_MAP !! callable_name f with
       | Some o => Found (COverload o)
       | None => KeyError (callable_name f)
       end
  else Found f.

(** ** Ancestors of a frame *)

(** The frame [n] levels up from [fr], when the stack is deep enough. *)
Fixpoint ancestor (n : nat) (fr : frame) : option frame :=
  match n with
  | O => Some fr
  | S n' =>
      match fr with
      | Frame _ _ (Some back) => ancestor n' back
      | Frame _ _ None => None
      end
  end.

(** * Properties *)

(** ** Vocabulary of the statements *)

(** A value the classifier sends down the native path. *)
Definition native (v : value) : Prop := classify v = Native.

(** A generic symbolic array: neither an array buffer nor a symbolic list. *)
Definition symbolic_array (v : value) : Prop := classify v = SymbolicArray.

(** [needle] occurs in [hay]. *)
Definition contains (needle hay : string) : Prop :=
  exists pre post, hay = pre +:+ needle +:+ post.

(** [p] is the beginning of [s]. *)
Fixpoint is_prefix (p s : string) : bool :=
  match p, s with
  | EmptyString, _ => true
  | String a p', String b s' => Ascii.eqb a b && is_prefix p' s'
  | String _ _, EmptyString => false
  end.

(** [needle] occurs in [hay], decided. *)
Fixpoint is_substring (needle hay : string) : bool :=
  is_prefix needle hay
  || match hay with
     | EmptyString => false
     | String _ hay' => is_substring needle hay'
     end.

(** The world before anything has been staged or printed. *)
Definition world0 : world := World [] [].

(** An input array named [x], of the given static shape. *)
Definition placeholder (sh : TensorShape) : tensor :=
  Tensor (NPlaceholder "x") DT_float32 sh.

(** The staged constant [5]. *)
Definition const_5 : tensor :=
  Tensor (NConst (VInt 5) []) DT_int32 (Some []).

(** The world after the shape query of [t]. *)
Definition after_shape_query (t : tensor) (w : world) : world :=
  World (w_graph w ++ [NShape t]) (w_stdout w).

(** The handle the shape query of [t] returns. *)
Definition shape_query (t : tensor) : tensor :=
  Tensor (NShape t) DT_int32 (Some [ndims (t_shape t)]).

(** The staged leading-dimension value [array_ops.shape(t)[0]]. *)
Definition staged_leading_dimension (t : tensor) : tensor :=
  Tensor (NGetItem (shape_query t) 0) DT_int32 (Some []).

(** The text of the execution-time failure for an observed [rank]. *)
Definition zero_rank_message (rank : Z) : string :=
  "assertion failed: [len requires non-zero rank, got " +:+ pretty rank +:+ "]".

(** The staged conditional that [_tf_tensor_len] builds for [t]. *)
Definition staged_len_cond (t : tensor) : tensor :=
  let rank := Tensor (NRank t) DT_int32 (Some []) in
  let text := Tensor (NAsString rank) DT_string (Some []) in
  let msg := Tensor (NStringJoin [VStr "len requires non-zero rank, got ";
                                  VTensor text]) DT_string (Some []) in
  let zero := Tensor (NConst (VInt 0) [NAssert (VBool false) [VTensor msg]])
                     DT_int32 (Some []) in
  Tensor (NCond (Tensor (NGreater rank (VInt 0)) DT_bool (Some []))
                (VTensor (staged_leading_dimension t)) (VTensor zero))
         DT_int32 (Some []).

(** The world after more operations have been added to the graph. *)
Definition with_ops (w : world) (ns : list node) : world :=
  World (w_graph w ++ ns) (w_stdout w).

(** The outcome of asking for the staged range of [args] in world [w]:
    either the operands are refused and nothing is added, or the range is
    added to the graph and its handle returned. *)
Definition staged_range (args : list value) (w : world)
  : world * result value :=
  match range_rejects args with
  | Some e => (w, Raise e)
  | None => (with_ops w [NRange args], Ok (VTensor (range_handle args)))
  end.

(** Some argument of the call is symbolic: the staged path is taken. *)
Definition staged_call (args : list value) : Prop :=
  existsb is_tensor args = true.

(** A staged constant holding the bytes [abc]. *)
Definition bytes_abc : tensor :=
  Tensor (NConst (VBytes "abc") []) DT_string (Some []).

(** The claim "a stack with fewer than [caller_level_delta + 1] frames
    above the evaluator's own frame makes the call fail", for every
    evaluation primitive, argument tuple and stack. *)
Definition fails_on_every_shallow_stack : Prop :=
  forall (f : list value -> M value) (args : list value)
         (caller_level_delta : Z) (currentframe : frame) (w : world),
    0 <= caller_level_delta ->
    Z.of_nat (frames_above currentframe) < caller_level_delta + 1 ->
    exists w' e,
      eval_in_original_context f args caller_level_delta currentframe w
      = (w', Raise e).

(** A module-level caller: one frame above the evaluator's own. *)
Definition module_level_stack : frame :=
  Frame (VDict ∅) (VDict ∅) (Some (Frame (VDict ∅) (VDict ∅) None)).

(** [w'] is [w] with more operations in the graph and the same console. *)
Definition extends (w w' : world) : Prop :=
  w_stdout w' = w_stdout w /\ exists ns, w_graph w' = w_graph w ++ ns.

(** A computation that only adds operations to the graph: it prints
    nothing and removes nothing, whether it returns or raises. *)
Definition quiet {A} (m : M A) : Prop := forall w, extends w (m w).1.

(** A computation that never consults the host: it is the same under any
    two hosts. *)
Definition host_free {A} (f : Host -> M A) : Prop :=
  forall H1 H2 w, f H1 w = f H2 w.

(** The evaluator's frame with one caller above it, which binds [x]. *)
Definition caller_binds_x : frame :=
  Frame (VDict ∅) (VDict ∅)
        (Some (Frame (VDict ∅) (VDict {[ "x" := VInt 1 ]}) None)).

(** An argument that was supplied: anything but the sentinel. *)
Definition supplied (v : value) : Prop := is_UNSPECIFIED v = false.


(** ** Classification *)

Lemma native_not_tensor v : native v -> is_tensor v = false.
Proof.
  unfold native, classify.
  destruct (is_tensor_array v), (is_tensor_list v), (is_tensor v);
    try discriminate; reflexivity.
Qed.

Lemma native_not_tensor_array v : native v -> is_tensor_array v = false.
Proof.
  unfold native, classify. destruct (is_tensor_array v);
    [discriminate | reflexivity].
Qed.

Lemma native_not_tensor_list v : native v -> is_tensor_list v = false.
Proof.
  unfold native, classify.
  destruct (is_tensor_array v), (is_tensor_list v);
    try discriminate; reflexivity.
Qed.

Lemma native_not_dataset v : native v -> is_dataset v = false.
Proof.
  unfold native, classify.
  destruct (is_tensor_array v), (is_tensor_list v), (is_tensor v),
    (is_dataset v); try discriminate; reflexivity.
Qed.

Lemma UNSPECIFIED_native : native UNSPECIFIED.
Proof. reflexivity. Qed.

Lemma symbolic_array_tensor t :
  symbolic_array (VTensor t) -> is_tensor_list (VTensor t) = false.
Proof.
  unfold symbolic_array, classify. simpl is_tensor_array. cbv iota.
  destruct (is_tensor_list (VTensor t)); [discriminate | reflexivity].
Qed.

Lemma existsb_is_tensor_native l :
  Forall native l -> existsb is_tensor l = false.
Proof.
  induction 1 as [| v l Hv _ IH]; simpl; [reflexivity |].
  rewrite (native_not_tensor v Hv). exact IH.
Qed.

(** ** Native paths *)

Section NativePaths.
Context (H : Host).

Lemma abs_native x w : is_tensor x = false -> abs_ H x w = builtin_abs H x w.
Proof. intros Hx. unfold abs_. rewrite Hx. reflexivity. Qed.

Lemma float_native x w :
  is_tensor x = false -> float_ H x w = builtin_float H x w.
Proof. intros Hx. unfold float_. rewrite Hx. reflexivity. Qed.

Lemma int_native_no_base x w :
  is_tensor x = false -> int_ H x UNSPECIFIED w = builtin_int H [x] w.
Proof. intros Hx. unfold int_. rewrite Hx. reflexivity. Qed.

Lemma int_native_base x base w :
  is_tensor x = false -> is_UNSPECIFIED base = false ->
  int_ H x base w = builtin_int H [x; base] w.
Proof.
  intros Hx Hb. unfold int_, _py_int. rewrite Hx, Hb. reflexivity.
Qed.

Lemma len_native s w : native s -> len_ H s w = builtin_len H s w.
Proof.
  intros Hs. unfold len_.
  rewrite (native_not_tensor_array s Hs), (native_not_tensor_list s Hs),
    (native_not_tensor s Hs).
  reflexivity.
Qed.

Lemma recognized_no_unknown (kwargs : gmap string value) :
  dom kwargs ⊆ recognized_kwargs ->
  elements (dom kwargs ∖ recognized_kwargs) = [].
Proof.
  intros Hsub. apply elements_empty_iff. intros k. split.
  - intros [Hk Hout]%elem_of_difference. destruct Hout. apply Hsub, Hk.
  - intros Hk. by apply not_elem_of_empty in Hk.
Qed.

Lemma print_native objects kwargs w :
  existsb is_tensor objects = false ->
  dom kwargs ⊆ recognized_kwargs ->
  print_ H objects kwargs w
  = (builtin_print H objects kwargs ;;; ret VNone) w.
Proof.
  intros Hobj Hkw. unfold print_.
  rewrite (recognized_no_unknown kwargs Hkw), Hobj. reflexivity.
Qed.

Lemma range_native start_or_stop stop step w :
  existsb is_tensor [start_or_stop; stop; step] = false ->
  range_ H start_or_stop stop step w
  = _py_range H start_or_stop stop step w.
Proof. intros Hn. unfold range_. rewrite Hn. reflexivity. Qed.

Lemma enumerate_native s start w :
  is_dataset s = false ->
  enumerate_ H s start w = builtin_enumerate H s start w.
Proof. intros Hs. unfold enumerate_. rewrite Hs. reflexivity. Qed.

End NativePaths.

(** C1.  On native (non-symbolic) inputs every overload hands its arguments
    to the original host builtin and returns what the builtin returns, with
    the builtin's effects and errors: [abs_], [float_], [int_] (without and
    with a base), [len_], [print_] (once its keyword check has passed, the
    result being [None]), [range_] with one, two and three arguments, and
    [enumerate_].  On the small host, [len_("abc")] is [3] and [range_(5)]
    is [range(5)]. *)
Theorem native_path_is_builtin (H : Host) :
  (forall x w, native x -> abs_ H x w = builtin_abs H x w) /\
  (forall x w, native x -> float_ H x w = builtin_float H x w) /\
  (forall x w, native x -> int_ H x UNSPECIFIED w = builtin_int H [x] w) /\
  (forall x base w, native x -> is_UNSPECIFIED base = false ->
     int_ H x base w = builtin_int H [x; base] w) /\
  (forall s w, native s -> len_ H s w = builtin_len H s w) /\
  (forall objects kwargs w,
     Forall native objects -> dom kwargs ⊆ recognized_kwargs ->
     print_ H objects kwargs w
     = (builtin_print H objects kwargs ;;; ret VNone) w) /\
  (forall stop w, native stop ->
     range_ H stop UNSPECIFIED UNSPECIFIED w = builtin_range H [stop] w) /\
  (forall start stop w, native start -> native stop ->
     is_UNSPECIFIED stop = false ->
     range_ H start stop UNSPECIFIED w = builtin_range H [start; stop] w) /\
  (forall start stop step w, native start -> native stop -> native step ->
     is_UNSPECIFIED step = false ->
     range_ H start stop step w = builtin_range H [start; stop; step] w) /\
  (forall s start w, native s ->
     enumerate_ H s start w = builtin_enumerate H s start w) /\
  (forall w, len_ SmallHost.host (VStr "abc") w = (w, Ok (VInt 3))) /\
  (forall w, range_ SmallHost.host (VInt 5) UNSPECIFIED UNSPECIFIED w
             = builtin_range SmallHost.host [VInt 5] w).
Proof.
  repeat split.
  - intros x w Hx. apply abs_native, native_not_tensor, Hx.
  - intros x w Hx. apply float_native, native_not_tensor, Hx.
  - intros x w Hx. apply int_native_no_base, native_not_tensor, Hx.
  - intros x base w Hx Hb.
    apply int_native_base; [apply native_not_tensor, Hx | exact Hb].
  - intros s w Hs. apply len_native, Hs.
  - intros objects kwargs w Hobj Hkw.
    apply print_native; [apply existsb_is_tensor_native, Hobj | exact Hkw].
  - intros stop w Hs. rewrite range_native; [reflexivity |].
    apply existsb_is_tensor_native.
    repeat constructor; auto using UNSPECIFIED_native.
  - intros start stop w Ha Hb Hsupplied. rewrite range_native.
    + unfold _py_range. rewrite Hsupplied. reflexivity.
    + apply existsb_is_tensor_native.
      repeat constructor; auto using UNSPECIFIED_native.
  - intros start stop step w Ha Hb Hc Hsupplied. rewrite range_native.
    + unfold _py_range. rewrite Hsupplied. reflexivity.
    + apply existsb_is_tensor_native. repeat constructor; assumption.
  - intros s start w Hs. apply enumerate_native, native_not_dataset, Hs.
Qed.

(** [abs_(-3)] on the small host, through the theorem. *)
Lemma native_path_is_builtin_witness :
  native (VInt (-3)) /\
  abs_ SmallHost.host (VInt (-3)) world0 = (world0, Ok (VInt 3)).
Proof.
  split; [reflexivity |].
  rewrite (proj1 (native_path_is_builtin SmallHost.host) (VInt (-3)) world0
             eq_refl).
  reflexivity.
Defined.

(** ** Length resolution *)

Section Length.
Context (H : Host).

(** [len_] on a generic symbolic array is [_tf_tensor_len]. *)
Lemma len_symbolic_array t w :
  symbolic_array (VTensor t) ->
  len_ H (VTensor t) w = _tf_tensor_len (VTensor t) w.
Proof.
  intros Ht. unfold len_. simpl is_tensor_array.
  rewrite (symbolic_array_tensor t Ht). reflexivity.
Qed.

Lemma array_ops_shape_eq t w :
  array_ops_shape t w = (after_shape_query t w, Ok (shape_query t)).
Proof. reflexivity. Qed.

End Length.

(** C2.  For a generic symbolic array whose static shape has a known rank
    and a known leading dimension [n] (such as [(3, 4)]), [len_] returns the
    plain integer [n] and leaves the world as it was: no operation is added
    to the graph. *)
Theorem len_static_leading_dimension (H : Host) (t : tensor) (n : Z)
    (ds : list Dimension) (w : world) :
  symbolic_array (VTensor t) ->
  t_shape t = Some (Some n :: ds) ->
  len_ H (VTensor t) w = (w, Ok (VInt n)).
Proof.
  intros Ht Hsh. rewrite len_symbolic_array by exact Ht.
  destruct t as [op dt sh]. simpl in Hsh. subst sh.
  unfold _tf_tensor_len, bind, as_tensor, ret, lift. simpl.
  unfold ndims_truthy. simpl.
  destruct (Z.of_nat (S (length ds)) =? 0) eqn:E.
  - apply Z.eqb_eq in E. lia.
  - reflexivity.
Qed.

(** Static shape [(3, 4)]: the result is the plain integer [3]. *)
Lemma len_static_leading_dimension_witness :
  symbolic_array (VTensor (placeholder (Some [Some 3; Some 4]))) /\
  t_shape (placeholder (Some [Some 3; Some 4])) = Some [Some 3; Some 4] /\
  len_ SmallHost.host (VTensor (placeholder (Some [Some 3; Some 4]))) world0
  = (world0, Ok (VInt 3)).
Proof.
  split; [reflexivity |]. split; [reflexivity |].
  apply (len_static_leading_dimension SmallHost.host
           (placeholder (Some [Some 3; Some 4])) 3 [Some 4] world0);
    reflexivity.
Defined.

Lemma zero_rank_message_0 :
  contains "len requires non-zero rank, got 0" (zero_rank_message 0).
Proof. exists "assertion failed: [", "]". reflexivity. Qed.

(** Running the staged conditional: the leading dimension when the observed
    rank is positive, the assertion failure otherwise. *)
Lemma run_staged_len_cond runtime_shape t :
  run_tensor runtime_shape (staged_len_cond t)
  = match runtime_shape t with
    | d :: _ => Some (Ok (VInt d))
    | [] => Some (Raise (InvalidArgumentError
                           (zero_rank_message
                              (Z.of_nat (length (runtime_shape t))))))
    end.
Proof.
  unfold staged_len_cond, staged_leading_dimension, shape_query. simpl.
  destruct (runtime_shape t) as [| d ds] eqn:E; simpl.
  - reflexivity.
  - destruct (0 <? Z.of_nat (S (length ds))) eqn:Hpos.
    + reflexivity.
    + apply Z.ltb_ge in Hpos. lia.
Qed.

(** C3.  For a generic symbolic array of unknown rank, [len_] succeeds at
    construction and returns a staged conditional.  When the graph runs,
    the conditional yields the leading entry of the observed shape if the
    observed rank is positive; otherwise it fails in the engine with an
    assertion failure whose text embeds the observed rank, and for rank 0
    contains "len requires non-zero rank, got 0". *)
Theorem len_unknown_rank (H : Host) (t : tensor) (w : world) :
  symbolic_array (VTensor t) ->
  t_shape t = None ->
  (exists w', len_ H (VTensor t) w = (w', Ok (VTensor (staged_len_cond t)))) /\
  forall runtime_shape,
    (forall d ds, runtime_shape t = d :: ds ->
       run_tensor runtime_shape (staged_len_cond t) = Some (Ok (VInt d))) /\
    (runtime_shape t = [] ->
       run_tensor runtime_shape (staged_len_cond t)
       = Some (Raise (InvalidArgumentError (zero_rank_message 0))) /\
       contains "len requires non-zero rank, got 0" (zero_rank_message 0)).
Proof.
  intros Ht Hsh. split.
  - eexists. rewrite len_symbolic_array by exact Ht.
    destruct t as [op dt sh]. simpl in Hsh. subst sh. reflexivity.
  - intros runtime_shape. split.
    + intros d ds E. rewrite run_staged_len_cond, E. reflexivity.
    + intros E. split; [| exact zero_rank_message_0].
      rewrite run_staged_len_cond, E. reflexivity.
Qed.

(** An array of unknown rank that turns out to be a scalar when run. *)
Lemma len_unknown_rank_witness :
  symbolic_array (VTensor (placeholder None)) /\
  t_shape (placeholder None) = None /\
  (len_ SmallHost.host (VTensor (placeholder None)) world0).2
  = Ok (VTensor (staged_len_cond (placeholder None))) /\
  run_tensor (fun _ => []) (staged_len_cond (placeholder None))
  = Some (Raise (InvalidArgumentError
       "assertion failed: [len requires non-zero rank, got 0]")).
Proof.
  split; [reflexivity |]. split; [reflexivity |].
  destruct (len_unknown_rank SmallHost.host (placeholder None) world0
              eq_refl eq_refl) as ((w' & Hlen) & Hrun).
  split; [rewrite Hlen; reflexivity |].
  exact (proj1 (proj2 (Hrun (fun _ => [])) eq_refl)).
Defined.

Lemma is_prefix_app (p post : string) : is_prefix p (p +:+ post) = true.
Proof.
  induction p as [| a p IH]; [reflexivity |].
  change (Ascii.eqb a a && is_prefix p (p +:+ post) = true).
  by rewrite Ascii.eqb_refl, IH.
Qed.

Lemma contains_is_substring needle hay :
  contains needle hay -> is_substring needle hay = true.
Proof.
  intros (pre & post & ->).
  induction pre as [| c pre IH].
  - change (is_substring needle (needle +:+ post) = true).
    destruct (needle +:+ post) eqn:E; simpl.
    + rewrite <- E, is_prefix_app. reflexivity.
    + rewrite <- E, is_prefix_app. reflexivity.
  - change (is_prefix needle (String c (pre +:+ needle +:+ post))
            || is_substring needle (pre +:+ needle +:+ post) = true).
    rewrite IH. apply orb_true_r.
Qed.

(** C4, as stated, fails on two counts.  On a scalar array the error of
    [len_] reads "len requires a non-scalar tensor, got one of shape ...":
    the text "len requires a non-scalar value" does not occur in it.  On
    an array of static shape [(?, 4)] the shape query has a statically
    known leading dimension, and yet [len_] returns a staged handle and no
    constant. *)
Lemma len_dynamic_leading_not_as_claimed :
  (len_ SmallHost.host (VTensor (placeholder (Some []))) world0
   = (after_shape_query (placeholder (Some [])) world0,
      Raise (ValueError
               ("len requires a non-scalar tensor, got one of shape "
                +:+ tensor_str (shape_query (placeholder (Some []))))))
   /\ ~ contains "len requires a non-scalar value"
         ("len requires a non-scalar tensor, got one of shape "
          +:+ tensor_str (shape_query (placeholder (Some []))))) /\
  (dims0_value (t_shape (shape_query (placeholder (Some [None; Some 4]))))
   = Ok (Some 2)
   /\ (len_ SmallHost.host (VTensor (placeholder (Some [None; Some 4])))
          world0).2
      = Ok (VTensor (staged_leading_dimension
                       (placeholder (Some [None; Some 4]))))
   /\ forall n,
        (len_ SmallHost.host (VTensor (placeholder (Some [None; Some 4])))
           world0).2 <> Ok (VInt n)).
Proof.
  split; [split | split; [| split]].
  - reflexivity.
  - intros Hc. apply contains_is_substring in Hc.
    vm_compute in Hc. discriminate Hc.
  - reflexivity.
  - reflexivity.
  - intros n Hn. vm_compute in Hn. discriminate Hn.
Qed.

(** C4, amended.  For a generic symbolic array whose rank is known while
    its leading dimension is not, [len_] first emits the shape query.  For
    rank 0 it then fails at construction with the [ValueError]
    "len requires a non-scalar tensor, got one of shape ...".  For a
    positive rank the result is always the staged leading-dimension value
    [array_ops.shape(t)[0]]: no constant is returned on this path. *)
Theorem len_known_rank_dynamic_leading (H : Host) (t : tensor)
    (ds : list Dimension) (w : world) :
  symbolic_array (VTensor t) ->
  t_shape t = Some ds ->
  head ds = None \/ head ds = Some None ->
  len_ H (VTensor t) w
  = match ds with
    | [] =>
        (after_shape_query t w,
         Raise (ValueError
                  ("len requires a non-scalar tensor, got one of shape "
                   +:+ tensor_str (shape_query t))))
    | _ :: _ =>
        (World (w_graph w ++ [NShape t; NShape t;
                              NGetItem (shape_query t) 0])
               (w_stdout w),
         Ok (VTensor (staged_leading_dimension t)))
    end.
Proof.
  intros Ht Hsh Hlead. rewrite len_symbolic_array by exact Ht.
  destruct t as [op dt sh]. simpl in Hsh. subst sh.
  destruct ds as [| d ds].
  - reflexivity.
  - destruct Hlead as [Hl | Hl]; simpl in Hl; [discriminate |].
    injection Hl as ->.
    unfold _tf_tensor_len, bind, as_tensor, ret, lift. simpl.
    unfold ndims_truthy, shape_query, staged_leading_dimension. simpl.
    destruct (Z.of_nat (S (length ds)) =? 0) eqn:E.
    + apply Z.eqb_eq in E. lia.
    + unfold fmapM, tensor_getitem, new_op, bind, emit, ret. simpl.
      rewrite <- !app_assoc. reflexivity.
Qed.

(** A scalar array: the construction-time error. *)
Lemma len_known_rank_dynamic_leading_witness :
  symbolic_array (VTensor (placeholder (Some []))) /\
  t_shape (placeholder (Some [])) = Some [] /\
  (head ([] : list Dimension) = None \/ head ([] : list Dimension) = Some None)
  /\ len_ SmallHost.host (VTensor (placeholder (Some []))) world0
     = (after_shape_query (placeholder (Some [])) world0,
        Raise (ValueError
                 ("len requires a non-scalar tensor, got one of shape "
                  +:+ tensor_str (shape_query (placeholder (Some [])))))).
Proof.
  split; [reflexivity |]. split; [reflexivity |]. split; [left; reflexivity |].
  apply (len_known_rank_dynamic_leading SmallHost.host
           (placeholder (Some [])) [] world0);
    [reflexivity | reflexivity | left; reflexivity].
Defined.

(** ** Range construction *)

Lemma staged_call_drop_UNSPECIFIED args :
  staged_call args -> staged_call (args ++ [UNSPECIFIED]).
Proof.
  unfold staged_call. rewrite existsb_app. intros ->. reflexivity.
Qed.


Lemma with_ops_app w ns ms : with_ops (with_ops w ns) ms = with_ops w (ns ++ ms).
Proof. unfold with_ops. simpl. by rewrite app_assoc. Qed.

Lemma math_ops_range_eq args w :
  fmapM VTensor (math_ops_range args) w = staged_range args w.
Proof.
  unfold fmapM, math_ops_range, staged_range, bind.
  destruct (range_rejects args); reflexivity.
Qed.

(** A clamped bound is no constant of the graph, so the staged range never
    refuses a clamped call for its bounds. *)
Lemma clamped_range_accepted a b :
  number_like a = true ->
  range_rejects [a; VTensor (maximum_handle a b)] = None /\
  range_rejects [VTensor (maximum_handle a (VInt 0))] = None.
Proof.
  intros Ha. split; [| reflexivity].
  unfold range_rejects. simpl. rewrite Ha. simpl.
  destruct (static_number a); reflexivity.
Qed.

Section Range.
Context (H : Host).

Lemma tf_range_three a b c w :
  is_UNSPECIFIED c = false ->
  _tf_range a b c w = staged_range [a; b; c] w.
Proof.
  intros Hc. unfold _tf_range. rewrite Hc. apply math_ops_range_eq.
Qed.

Lemma tf_range_two a b w :
  is_UNSPECIFIED b = false ->
  _tf_range a b UNSPECIFIED w
  = staged_range [a; VTensor (maximum_handle a b)]
                 (with_ops w [NMaximum a b]).
Proof.
  intros Hb. unfold _tf_range. rewrite Hb. simpl.
  unfold bind at 1. unfold math_ops_maximum at 1. unfold bind, emit, ret.
  apply math_ops_range_eq.
Qed.

Lemma tf_range_one a w :
  _tf_range a UNSPECIFIED UNSPECIFIED w
  = staged_range [VTensor (maximum_handle a (VInt 0))]
                 (with_ops w [NMaximum a (VInt 0)]).
Proof.
  unfold _tf_range. simpl.
  unfold bind at 1. unfold math_ops_maximum at 1. unfold bind, emit, ret.
  apply math_ops_range_eq.
Qed.

Lemma range_staged a b c w :
  staged_call [a; b; c] -> range_ H a b c w = _tf_range a b c w.
Proof. unfold staged_call, range_. intros ->. reflexivity. Qed.

End Range.

(** When the graph runs, the staged maximum of two integers is their
    maximum. *)
Lemma run_maximum_handle runtime_shape x y a b :
  run_value runtime_shape x = Some (Ok (VInt a)) ->
  run_value runtime_shape y = Some (Ok (VInt b)) ->
  run_tensor runtime_shape (maximum_handle x y) = Some (Ok (VInt (Z.max a b))).
Proof. intros Hx Hy. simpl. rewrite Hx, Hy. reflexivity. Qed.

(** C5.  On the staged path of [range_] the arguments are prepared by
    argument count before the staged range operation is asked for.  With a
    step supplied the operation is asked for the three arguments as they
    are, in the world as it was: nothing is clamped, and the operation may
    refuse them.  With start and stop it is asked for [start] and the
    staged [maximum(start, stop)], added to the graph first.  With stop
    alone it is asked for the staged [maximum(stop, 0)].  A clamped call is
    never refused for its bounds. *)
Theorem tf_range_clamping (H : Host) (a b c : value) (w : world) :
  (staged_call [a; b; c] -> is_UNSPECIFIED c = false ->
     range_ H a b c w = staged_range [a; b; c] w) /\
  (staged_call [a; b] -> is_UNSPECIFIED b = false ->
     range_ H a b UNSPECIFIED w
     = staged_range [a; VTensor (maximum_handle a b)]
                    (with_ops w [NMaximum a b])) /\
  (staged_call [a] ->
     range_ H a UNSPECIFIED UNSPECIFIED w
     = staged_range [VTensor (maximum_handle a (VInt 0))]
                    (with_ops w [NMaximum a (VInt 0)])) /\
  (number_like a = true ->
     range_rejects [a; VTensor (maximum_handle a b)] = None /\
     range_rejects [VTensor (maximum_handle a (VInt 0))] = None).
Proof.
  split; [| split; [| split]].
  - intros Hst Hc. rewrite range_staged by exact Hst.
    apply tf_range_three, Hc.
  - intros Hst Hb.
    rewrite range_staged by exact (staged_call_drop_UNSPECIFIED [a; b] Hst).
    apply tf_range_two, Hb.
  - intros Hst.
    rewrite range_staged
      by exact (staged_call_drop_UNSPECIFIED [a; UNSPECIFIED]
                  (staged_call_drop_UNSPECIFIED [a] Hst)).
    apply tf_range_one.
  - apply clamped_range_accepted.
Qed.

(** A staged constant [5] as start.  [range_(5, 2, 1)] is refused at
    construction and leaves the graph as it was; [range_(5, 2)] is clamped
    and accepted. *)
Lemma tf_range_clamping_witness :
  staged_call [VTensor const_5; VInt 2; VInt 1] /\
  is_UNSPECIFIED (VInt 1) = false /\
  range_ SmallHost.host (VTensor const_5) (VInt 2) (VInt 1) world0
  = (world0, Raise (ValueError "Requires start <= limit when delta > 0")) /\
  range_ SmallHost.host (VTensor const_5) (VInt 2) UNSPECIFIED world0
  = (World [NMaximum (VTensor const_5) (VInt 2);
            NRange [VTensor const_5;
                    VTensor (maximum_handle (VTensor const_5) (VInt 2))]] [],
     Ok (VTensor (range_handle
                    [VTensor const_5;
                     VTensor (maximum_handle (VTensor const_5) (VInt 2))]))).
Proof.
  split; [reflexivity |]. split; [reflexivity |]. split.
  - rewrite (proj1 (tf_range_clamping SmallHost.host (VTensor const_5)
                      (VInt 2) (VInt 1) world0) eq_refl eq_refl).
    reflexivity.
  - rewrite (proj1 (proj2 (tf_range_clamping SmallHost.host (VTensor const_5)
                             (VInt 2) (VInt 1) world0)) eq_refl eq_refl).
    reflexivity.
Defined.




(** ** Integer coercion *)

(** C6.  On the staged path of [int_], a base that is supplied and differs
    from 10 makes the call fail with [NotImplementedError] before anything
    is staged.  With the base omitted or equal to 10, a text array goes
    through the staged text-to-number operation and any other array
    through the staged cast, both to [int32]. *)
Theorem tf_int_base (H : Host) (t : tensor) (base : value) (w : world) :
  (is_UNSPECIFIED base = false -> py_eq_int base 10 = false ->
     int_ H (VTensor t) base w
     = (w, Raise (NotImplementedError
                    ("base " +:+ value_str base +:+ " not supported for int"))))
  /\
  (is_UNSPECIFIED base = true \/ py_eq_int base 10 = true ->
     int_ H (VTensor t) base w
     = if bool_decide (t_dtype t = DT_string)
       then (with_ops w [NStringToNumber t DT_int32],
             Ok (VTensor (Tensor (NStringToNumber t DT_int32) DT_int32
                                 (t_shape t))))
       else (with_ops w [NCast t DT_int32],
             Ok (VTensor (Tensor (NCast t DT_int32) DT_int32 (t_shape t))))).
Proof.
  split.
  - intros Hu H10. unfold int_, _tf_int, in_10_UNSPECIFIED. simpl.
    rewrite Hu, H10. reflexivity.
  - intros Hb. unfold int_, _tf_int, in_10_UNSPECIFIED. simpl.
    assert (py_eq_int base 10 || is_UNSPECIFIED base = true) as ->.
    { destruct Hb as [-> | ->]; [apply orb_true_r | reflexivity]. }
    simpl. unfold bind, as_tensor, ret. simpl.
    destruct (bool_decide (t_dtype t = DT_string)); reflexivity.
Qed.

(** [int_(x, 16)] on a symbolic [x] is refused; [int_(x, 10)] is a cast. *)
Lemma tf_int_base_witness :
  is_UNSPECIFIED (VInt 16) = false /\ py_eq_int (VInt 16) 10 = false /\
  int_ SmallHost.host (VTensor (placeholder (Some []))) (VInt 16) world0
  = (world0, Raise (NotImplementedError "base 16 not supported for int")) /\
  int_ SmallHost.host (VTensor (placeholder (Some []))) (VInt 10) world0
  = (with_ops world0 [NCast (placeholder (Some [])) DT_int32],
     Ok (VTensor (Tensor (NCast (placeholder (Some [])) DT_int32) DT_int32
                         (Some [])))).
Proof.
  split; [reflexivity |]. split; [reflexivity |]. split.
  - exact (proj1 (tf_int_base SmallHost.host (placeholder (Some []))
                    (VInt 16) world0) eq_refl eq_refl).
  - exact (proj2 (tf_int_base SmallHost.host (placeholder (Some []))
                    (VInt 10) world0) (or_intror eq_refl)).
Defined.

(** ** Output *)

Lemma append_assoc (a b c : string) : (a +:+ b) +:+ c = a +:+ b +:+ c.
Proof.
  induction a as [| x a IH]; [reflexivity |].
  change (String x ((a +:+ b) +:+ c) = String x (a +:+ b +:+ c)).
  f_equal. exact IH.
Qed.

Lemma append_empty_r (a : string) : a +:+ "" = a.
Proof.
  induction a as [| x a IH]; [reflexivity |].
  change (String x (a +:+ "") = String x a). f_equal. exact IH.
Qed.

Lemma contains_refl s : contains s s.
Proof. exists "", "". simpl. by rewrite append_empty_r. Qed.

Lemma contains_app_l x p s : contains x s -> contains x (p +:+ s).
Proof.
  intros (pre & post & ->). exists (p +:+ pre), post.
  by rewrite append_assoc.
Qed.

Lemma contains_app_r x s q : contains x s -> contains x (s +:+ q).
Proof.
  intros (pre & post & ->). exists pre, (post +:+ q).
  by rewrite !append_assoc.
Qed.

Lemma contains_concat sep x (l : list string) :
  x ∈ l -> contains x (String.concat sep l).
Proof.
  induction l as [| y l IH]; intros Hin.
  - by apply elem_of_nil in Hin.
  - apply elem_of_cons in Hin as [-> | Hin].
    + destruct l as [| z l]; simpl; [apply contains_refl |].
      apply contains_app_r, contains_refl.
    + destruct l as [| z l]; [by apply elem_of_nil in Hin |].
      change (String.concat sep (y :: z :: l))
        with (y +:+ sep +:+ String.concat sep (z :: l)).
      apply contains_app_l, contains_app_l, IH, Hin.
Qed.

Lemma contains_tuple_str x (l : list string) :
  x ∈ l -> contains x (tuple_str l).
Proof.
  intros Hin. unfold tuple_str.
  destruct l as [| y [| z l]].
  - by apply elem_of_nil in Hin.
  - apply list_elem_of_singleton in Hin as ->.
    apply contains_app_l, contains_app_r, contains_refl.
  - apply contains_app_l, contains_app_r, contains_concat, Hin.
Qed.

(** C7.  A keyword argument of [print_] whose key is outside
    [('sep', 'end', 'file', 'flush')] makes the call fail at once with a
    [ValueError] whose text names the key.  This holds whatever the
    positional arguments are, symbolic or not, and the world is untouched:
    nothing has been printed and nothing has been staged. *)
Theorem print_unknown_kwargs (H : Host) (objects : list value)
    (kwargs : gmap string value) (w : world) (k : string) :
  k ∈ dom kwargs ->
  k ∉ recognized_kwargs ->
  exists msg,
    print_ H objects kwargs w = (w, Raise (ValueError msg)) /\
    contains (str_repr k) msg.
Proof.
  intros Hin Hout.
  assert (Hk : k ∈ elements (dom kwargs ∖ recognized_kwargs)).
  { apply elem_of_elements, elem_of_difference. split; assumption. }
  eexists. split.
  - unfold print_.
    destruct (bool_decide_reflect
                (elements (dom kwargs ∖ recognized_kwargs) = [])) as [E | E].
    + rewrite E in Hk. by apply elem_of_nil in Hk.
    + reflexivity.
  - apply contains_app_l, contains_tuple_str.
    apply list_elem_of_fmap. exists k. split; [reflexivity | exact Hk].
Qed.

(** [print_(1, bogus=True)] *)
Lemma print_unknown_kwargs_witness :
  ("bogus" ∈ dom ({[ "bogus" := VBool true ]} : gmap string value)) /\
  ("bogus" ∉ recognized_kwargs) /\
  exists msg,
    print_ SmallHost.host [VInt 1] {[ "bogus" := VBool true ]} world0
    = (world0, Raise (ValueError msg)) /\
    contains "'bogus'" msg.
Proof.
  assert (Hin : "bogus" ∈ dom ({[ "bogus" := VBool true ]}
                                : gmap string value)).
  { apply (bool_decide_unpack _). vm_compute. exact I. }
  assert (Hout : "bogus" ∉ recognized_kwargs).
  { apply (bool_decide_unpack _). vm_compute. exact I. }
  split; [exact Hin |]. split; [exact Hout |].
  exact (print_unknown_kwargs SmallHost.host [VInt 1]
           {[ "bogus" := VBool true ]} world0 "bogus" Hin Hout).
Defined.

Lemma mapM_id {A} (f : A -> M A) (l : list A) w :
  Forall (fun a => forall w', f a w' = (w', Ok a)) l ->
  mapM f l w = (w, Ok l).
Proof.
  induction 1 as [| a l Ha _ IH]; [reflexivity |].
  simpl. unfold bind. rewrite Ha, IH. reflexivity.
Qed.

Section Print.
Context (H : Host).

(** Once the values are materialised and, under Python 3, decoded, the
    wrapper is one call of the host [print] on them, with the keyword
    arguments captured in the closure. *)
Lemma print_wrapper_runs (PY3 : bool) override_kwargs
    (vals vals1 vals2 : list value) (w w1 w2 : world) :
  materialise_all H vals w = (w1, Ok vals1) ->
  (if PY3 then decode_all H vals1 else ret vals1) w1 = (w2, Ok vals2) ->
  print_wrapper H PY3 override_kwargs vals w
  = (builtin_print H vals2 override_kwargs ;;; ret VNone) w2.
Proof.
  intros Hmat Hdec. unfold print_wrapper.
  unfold bind at 1. rewrite Hmat.
  unfold bind at 1. rewrite Hdec. reflexivity.
Qed.

Lemma override_kwargs_lookup (kwargs : gmap string value) k :
  override_kwargs_of kwargs !! k
  = match kwargs !! k with
    | Some v => if is_UNSPECIFIED v
                then (if bool_decide (k = "flush")
                      then Some (VBool true) else None)
                else Some v
    | None => if bool_decide (k = "flush") then Some (VBool true) else None
    end.
Proof.
  unfold override_kwargs_of.
  set (kept := filter (fun kv => is_UNSPECIFIED kv.2 = false) kwargs).
  assert (Hkept : forall j, kept !! j
            = match kwargs !! j with
              | Some v => if is_UNSPECIFIED v then None else Some v
              | None => None
              end).
  { intros j. unfold kept. destruct (kwargs !! j) as [v |] eqn:E.
    - destruct (is_UNSPECIFIED v) eqn:Ev.
      + apply map_lookup_filter_None. right. intros v' E'. simpl.
        rewrite E in E'. injection E' as <-. rewrite Ev. discriminate.
      + apply map_lookup_filter_Some. split; [exact E | exact Ev].
    - apply map_lookup_filter_None. left. exact E. }
  destruct (bool_decide_reflect ("flush" ∈ dom kept)) as [Hf | Hf].
  - rewrite Hkept. apply elem_of_dom in Hf as [fv Hfv].
    rewrite Hkept in Hfv.
    destruct (bool_decide_reflect (k = "flush")) as [-> | Hk].
    + destruct (kwargs !! "flush") as [v |]; [| discriminate].
      destruct (is_UNSPECIFIED v); [discriminate | reflexivity].
    + reflexivity.
  - apply not_elem_of_dom in Hf. rewrite Hkept in Hf.
    destruct (bool_decide_reflect (k = "flush")) as [-> | Hk].
    + rewrite lookup_insert_eq.
      destruct (kwargs !! "flush") as [v |]; [| reflexivity].
      destruct (is_UNSPECIFIED v); [reflexivity | discriminate].
    + rewrite lookup_insert_ne by congruence. apply Hkept.
Qed.

End Print.

(** C8.  On the staged path [print_] stages one callback whose closure
    holds the keyword arguments prepared for the host [print].  When the
    callback runs on any values, symbolic ones included, and their
    materialisation and decoding succeed, the host [print] is called once,
    on the resulting values and with exactly those keyword arguments.
    Among them ['flush'] is [True] unless the caller supplied a value for
    it, no entry is the sentinel [UNSPECIFIED], and every other supplied
    entry is passed on unchanged. *)
Theorem staged_print_kwargs (H : Host) (PY3 : bool) (objects : list value)
    (kwargs : gmap string value) (w : world) :
  staged_call objects ->
  dom kwargs ⊆ recognized_kwargs ->
  print_ H objects kwargs w
  = (with_ops w [NPyFunc (PrintWrapper (override_kwargs_of kwargs))
                   objects true],
     Ok (VTensor (py_func_handle (PrintWrapper (override_kwargs_of kwargs))
                    objects true))) /\
  (forall vals vals1 vals2 w' w1 w2,
     materialise_all H vals w' = (w1, Ok vals1) ->
     (if PY3 then decode_all H vals1 else ret vals1) w1 = (w2, Ok vals2) ->
     run_closure H PY3 (PrintWrapper (override_kwargs_of kwargs)) vals w'
     = (builtin_print H vals2 (override_kwargs_of kwargs) ;;; ret VNone) w2)
  /\
  override_kwargs_of kwargs !! "flush"
  = match kwargs !! "flush" with
    | Some v => if is_UNSPECIFIED v then Some (VBool true) else Some v
    | None => Some (VBool true)
    end /\
  (forall k v, override_kwargs_of kwargs !! k = Some v ->
     is_UNSPECIFIED v = false) /\
  (forall k, k <> "flush" ->
     override_kwargs_of kwargs !! k
     = match kwargs !! k with
       | Some v => if is_UNSPECIFIED v then None else Some v
       | None => None
       end).
Proof.
  intros Hst Hkw. repeat split.
  - unfold print_. rewrite (recognized_no_unknown kwargs Hkw).
    unfold staged_call in Hst. rewrite Hst. reflexivity.
  - intros vals vals1 vals2 w' w1 w2 Hmat Hdec.
    apply (print_wrapper_runs H PY3 _ vals vals1 vals2 w' w1 w2 Hmat Hdec).
  - rewrite override_kwargs_lookup. simpl.
    destruct (kwargs !! "flush") as [v |]; reflexivity.
  - intros k v. rewrite override_kwargs_lookup.
    destruct (kwargs !! k) as [u |].
    + destruct (is_UNSPECIFIED u) eqn:Eu.
      * destruct (bool_decide (k = "flush")); [| discriminate].
        intros [= <-]. reflexivity.
      * intros [= <-]. exact Eu.
    + destruct (bool_decide (k = "flush")); [| discriminate].
      intros [= <-]. reflexivity.
  - intros k Hk. rewrite override_kwargs_lookup.
    rewrite bool_decide_eq_false_2 by exact Hk. reflexivity.
Qed.

(** [print_(x, sep='-', end=UNSPECIFIED)] with [x] a staged constant
    holding bytes.  Running the staged callback on the small host under
    Python 3 prints the decoded text with [sep='-'] and [flush=True], and
    no [end]. *)
Lemma staged_print_kwargs_witness :
  staged_call [VTensor bytes_abc] /\
  (dom ({[ "sep" := VStr "-"; "end" := UNSPECIFIED ]} : gmap string value)
   ⊆ recognized_kwargs) /\
  run_closure SmallHost.host true
    (PrintWrapper
       (override_kwargs_of {[ "sep" := VStr "-"; "end" := UNSPECIFIED ]}))
    [VTensor bytes_abc] world0
  = (World [] [([VStr "abc"],
                {[ "sep" := VStr "-"; "flush" := VBool true ]})],
     Ok VNone).
Proof.
  assert (Hkw : dom ({[ "sep" := VStr "-"; "end" := UNSPECIFIED ]}
                      : gmap string value) ⊆ recognized_kwargs).
  { apply (bool_decide_unpack _). vm_compute. exact I. }
  split; [reflexivity |]. split; [exact Hkw |].
  rewrite (proj1 (proj2 (staged_print_kwargs SmallHost.host true
                           [VTensor bytes_abc]
                           {[ "sep" := VStr "-"; "end" := UNSPECIFIED ]}
                           world0 eq_refl Hkw))
             [VTensor bytes_abc] [VBytes "abc"] [VStr "abc"]
             world0 world0 world0 eq_refl eq_refl).
  vm_compute. reflexivity.
Defined.

(** ** Frame resolution *)

Lemma walk_back_inside n fr w :
  (n <= frames_above fr)%nat ->
  exists fr', walk_back n (Some fr) w = (w, Ok (Some fr')).
Proof.
  revert fr. induction n as [| n IH]; intros fr Hn.
  - exists fr. reflexivity.
  - destruct fr as [g l [back |]]; simpl in Hn; [| lia].
    destruct (IH back ltac:(lia)) as [fr' Hfr'].
    exists fr'. simpl. unfold bind. simpl. exact Hfr'.
Qed.

Lemma walk_back_bottom k fr w :
  frames_above fr = k ->
  walk_back (S k) (Some fr) w = (w, Ok None).
Proof.
  revert fr. induction k as [| k IH]; intros fr Hk.
  - destruct fr as [g l [back |]]; [discriminate | reflexivity].
  - destruct fr as [g l [back |]]; [| discriminate].
    injection Hk as Hk. exact (IH back Hk).
Qed.

Lemma walk_back_past k m fr w :
  frames_above fr = k ->
  walk_back (S (S k) + m) (Some fr) w
  = (w, Raise (AttributeError "'NoneType' object has no attribute 'f_back'")).
Proof.
  revert fr. induction k as [| k IH]; intros fr Hk.
  - destruct fr as [g l [back |]]; [discriminate | reflexivity].
  - destruct fr as [g l [back |]]; [| discriminate].
    injection Hk as Hk. exact (IH back Hk).
Qed.

(** C9, as stated, fails.  Called from module level with
    [caller_level_delta = 1] and with both globals and locals supplied, the
    walk ends on [None], the missing frame is never read, and the
    evaluation primitive runs on the three supplied arguments. *)
Lemma shallow_stack_with_supplied_bindings :
  eval_in_original_context (fun a => ret (VTuple a))
    [VStr "x + 1"; VDict {[ "x" := VInt 1 ]}; VDict ∅] 1
    module_level_stack world0
  = (world0, Ok (VTuple [VStr "x + 1"; VDict {[ "x" := VInt 1 ]}; VDict ∅]))
  /\ ~ fails_on_every_shallow_stack.
Proof.
  split; [reflexivity |].
  intros Hclaim.
  destruct (Hclaim (fun a => ret (VTuple a))
              [VStr "x + 1"; VDict {[ "x" := VInt 1 ]}; VDict ∅] 1
              module_level_stack world0 ltac:(lia) ltac:(simpl; lia))
    as (w' & e & He).
  discriminate He.
Qed.

(** C9, amended.  With [n] frames above the evaluator's own frame and a
    non-negative [caller_level_delta]:
    - if [n < caller_level_delta] the walk itself steps off the stack and
      the call fails with [AttributeError];
    - if [n = caller_level_delta] and one or two arguments were supplied,
      the call fails with [AttributeError] when it reads the bindings of
      the missing frame (with no argument at all, [args[0]] fails first);
    - if [n = caller_level_delta] and globals and locals were both
      supplied, no frame is read and the primitive runs on the first three
      arguments. *)
Theorem frame_resolution (f : list value -> M value) (args : list value)
    (caller_level_delta : Z) (currentframe : frame) (w : world) :
  0 <= caller_level_delta ->
  (Z.of_nat (frames_above currentframe) < caller_level_delta ->
     eval_in_original_context f args caller_level_delta currentframe w
     = (w, Raise (AttributeError
                    "'NoneType' object has no attribute 'f_back'"))) /\
  (Z.of_nat (frames_above currentframe) = caller_level_delta ->
     match args with
     | [] =>
         eval_in_original_context f args caller_level_delta currentframe w
         = (w, Raise (IndexError "tuple index out of range"))
     | [_] | [_; _] =>
         exists msg,
           eval_in_original_context f args caller_level_delta currentframe w
           = (w, Raise (AttributeError msg))
     | a0 :: a1 :: a2 :: _ =>
         eval_in_original_context f args caller_level_delta currentframe w
         = f [a0; a1; a2] w
     end).
Proof.
  intros Hd. split.
  - intros Hshallow. unfold eval_in_original_context.
    replace (Z.to_nat (caller_level_delta + 1))
      with (S (S (frames_above currentframe))
            + (Z.to_nat caller_level_delta
               - S (frames_above currentframe)))%nat by lia.
    unfold bind at 1. rewrite walk_back_past by reflexivity. reflexivity.
  - intros Hexact.
    assert (Hwalk : walk_back (Z.to_nat (caller_level_delta + 1))
                      (Some currentframe) w = (w, Ok None)).
    { replace (Z.to_nat (caller_level_delta + 1))
        with (S (frames_above currentframe)) by lia.
      apply walk_back_bottom. reflexivity. }
    destruct args as [| a0 [| a1 [| a2 rest]]].
    + unfold eval_in_original_context, bind. rewrite Hwalk. reflexivity.
    + eexists. unfold eval_in_original_context, bind. rewrite Hwalk.
      reflexivity.
    + eexists. unfold eval_in_original_context, bind. rewrite Hwalk.
      reflexivity.
    + unfold eval_in_original_context, bind. rewrite Hwalk.
      unfold tuple_getitem, ret. simpl.
      replace (Z.of_nat (S (S (S (length rest)))) <? 2) with false
        by (symmetry; apply Z.ltb_ge; lia).
      replace (Z.of_nat (S (S (S (length rest)))) <? 3) with false
        by (symmetry; apply Z.ltb_ge; lia).
      reflexivity.
Qed.

(** From module level with [caller_level_delta = 1] and only the expression
    supplied: the globals of the missing frame cannot be read. *)
Lemma frame_resolution_witness :
  0 <= 1 /\
  Z.of_nat (frames_above module_level_stack) = 1 /\
  exists msg,
    eval_in_original_context (fun a => ret (VTuple a)) [VStr "x + 1"] 1
      module_level_stack world0
    = (world0, Raise (AttributeError msg)).
Proof.
  split; [lia |]. split; [reflexivity |].
  exact (proj2 (frame_resolution (fun a => ret (VTuple a)) [VStr "x + 1"] 1
                  module_level_stack world0 ltac:(lia)) eq_refl).
Defined.

(** ** Worked examples on the small host *)

(** [print_(1, 2, sep='-')]: one call of the host [print], no staged node,
    result [None]. *)
Example print_native_example :
  print_ SmallHost.host [VInt 1; VInt 2] {[ "sep" := VStr "-" ]} world0
  = (World [] [([VInt 1; VInt 2], {[ "sep" := VStr "-" ]})], Ok VNone).
Proof. reflexivity. Qed.

(** [enumerate_([10, 20], start=1)] *)
Example enumerate_native_example :
  enumerate_ SmallHost.host (VList [VInt 10; VInt 20]) (VInt 1) world0
  = (world0, Ok (VEnumerate (VList [VInt 10; VInt 20]) (VInt 1))).
Proof. reflexivity. Qed.

(** [range_(2, 2)] with a symbolic start: nothing fails at construction,
    and the staged stop runs to [max(2, 2) = 2]. *)
Example range_staged_example :
  (range_ SmallHost.host (VTensor (placeholder (Some []))) (VInt 2)
     UNSPECIFIED world0).2
  = Ok (VTensor (range_handle
                   [VTensor (placeholder (Some []));
                    VTensor (maximum_handle (VTensor (placeholder (Some [])))
                               (VInt 2))])) /\
  run_tensor (fun _ => []) (maximum_handle (VInt 2) (VInt 2))
  = Some (Ok (VInt 2)).
Proof. split; reflexivity. Qed.

(** [eval_in_original_context(f, ("x + 1",), 0)]: the primitive gets the
    globals and locals of the immediate caller. *)
Example eval_in_caller_example :
  eval_in_original_context (fun a => ret (VTuple a)) [VStr "x + 1"] 0
    (Frame (VDict ∅) (VDict ∅)
       (Some (Frame (VDict {[ "g" := VInt 0 ]}) (VDict {[ "x" := VInt 1 ]})
                None)))
    world0
  = (world0, Ok (VTuple [VStr "x + 1"; VDict {[ "g" := VInt 0 ]};
                         VDict {[ "x" := VInt 1 ]}])).
Proof. reflexivity. Qed.

(** * Further properties *)

(** ** The dispatch registry *)

(** X3.  [xrange] is overloaded only under Python 2, and then by the same
    overload as [range]; on every other call target the registry answers
    the same under both versions. *)
Theorem overload_of_xrange (f : callable) :
  overload_of true (CBuiltin B_xrange) = overload_of true (CBuiltin B_range) /\
  overload_of true (CBuiltin B_xrange) = Found (COverload O_range) /\
  overload_of false (CBuiltin B_xrange) = Found (CBuiltin B_xrange) /\
  (f <> CBuiltin B_xrange -> overload_of true f = overload_of false f).
Proof.
  split; [vm_compute; reflexivity |].
  split; [vm_compute; reflexivity |].
  split; [vm_compute; reflexivity |].
  intros Hf. unfold overload_of.
  assert (Hsame : f ∈ SUPPORTED_BUILTINS true <-> f ∈ SUPPORTED_BUILTINS false).
  { unfold SUPPORTED_BUILTINS. rewrite !elem_of_app.
    rewrite list_elem_of_singleton. split.
    - intros [Hin | ->]; [left; exact Hin | by destruct Hf].
    - intros [Hin | Hin]; [left; exact Hin | by apply elem_of_nil in Hin]. }
  destruct (bool_decide_reflect (f ∈ SUPPORTED_BUILTINS true)) as [Hin | Hout].
  - rewrite bool_decide_eq_true_2 by (apply Hsame, Hin). reflexivity.
  - rewrite bool_decide_eq_false_2; [reflexivity |].
    intros Hin. apply Hout, Hsame, Hin.
Qed.

(** [range] itself is overloaded alike under both versions. *)
Lemma overload_of_xrange_witness :
  CBuiltin B_range <> CBuiltin B_xrange /\
  overload_of true (CBuiltin B_range) = overload_of false (CBuiltin B_range).
Proof.
  assert (Hne : CBuiltin B_range <> CBuiltin B_xrange) by discriminate.
  split; [exact Hne |].
  exact (proj2 (proj2 (proj2 (overload_of_xrange (CBuiltin B_range)))) Hne).
Defined.

(** ** Staged paths only add to the graph *)

Lemma extends_refl w : extends w w.
Proof. split; [reflexivity |]. exists []. by rewrite app_nil_r. Qed.

Lemma extends_trans w1 w2 w3 : extends w1 w2 -> extends w2 w3 -> extends w1 w3.
Proof.
  intros [Ho1 [ns1 Hg1]] [Ho2 [ns2 Hg2]]. split; [congruence |].
  exists (ns1 ++ ns2). rewrite Hg2, Hg1. by rewrite app_assoc.
Qed.

Lemma quiet_ret {A} (a : A) : quiet (ret a).
Proof. intros w. apply extends_refl. Qed.

Lemma quiet_raise {A} e : quiet (@raise A e).
Proof. intros w. apply extends_refl. Qed.

Lemma quiet_lift {A} (r : result A) : quiet (lift r).
Proof. intros w. apply extends_refl. Qed.

Lemma quiet_emit n : quiet (emit n).
Proof. intros w. split; [reflexivity |]. by exists [n]. Qed.

Lemma quiet_bind {A B} (m : M A) (k : A -> M B) :
  quiet m -> (forall a, quiet (k a)) -> quiet (bind m k).
Proof.
  intros Hm Hk w. unfold bind. specialize (Hm w).
  destruct (m w) as [w' [a | e]]; simpl in *.
  - eapply extends_trans; [exact Hm | apply Hk].
  - exact Hm.
Qed.

Lemma quiet_fmapM {A B} (f : A -> B) (m : M A) : quiet m -> quiet (fmapM f m).
Proof. intros Hm. apply quiet_bind; [exact Hm | intros a; apply quiet_ret]. Qed.

Lemma quiet_new_op n dt sh : quiet (new_op n dt sh).
Proof. apply quiet_bind; [apply quiet_emit | intros _; apply quiet_ret]. Qed.

Lemma quiet_as_tensor v : quiet (as_tensor v).
Proof. destruct v; first [apply quiet_ret | apply quiet_raise]. Qed.

Lemma quiet_math_ops_range args : quiet (math_ops_range args).
Proof.
  unfold math_ops_range. destruct (range_rejects args); [apply quiet_raise |].
  apply quiet_bind; [apply quiet_emit | intros _; apply quiet_ret].
Qed.

Lemma quiet_math_ops_maximum x y : quiet (math_ops_maximum x y).
Proof. apply quiet_bind; [apply quiet_emit | intros _; apply quiet_ret]. Qed.

Lemma quiet_Assert c data : quiet (control_flow_ops_Assert c data).
Proof. apply quiet_bind; [apply quiet_emit | intros _; apply quiet_ret]. Qed.

Lemma quiet_cond pred (t f : M tensor) :
  quiet t -> quiet f -> quiet (control_flow_ops_cond pred t f).
Proof.
  intros Ht Hf. apply quiet_bind; [exact Ht | intros a].
  apply quiet_bind; [exact Hf | intros b]. apply quiet_new_op.
Qed.

(** One step of a proof that a staged function is [quiet]. *)
Ltac quiet_step :=
  lazymatch goal with
  | |- quiet (ret _) => apply quiet_ret
  | |- quiet (raise _) => apply quiet_raise
  | |- quiet (lift _) => apply quiet_lift
  | |- quiet (emit _) => apply quiet_emit
  | |- quiet (new_op _ _ _) => apply quiet_new_op
  | |- quiet (as_tensor _) => apply quiet_as_tensor
  | |- quiet (math_ops_range _) => apply quiet_math_ops_range
  | |- quiet (math_ops_maximum _ _) => apply quiet_math_ops_maximum
  | |- quiet (control_flow_ops_Assert _ _) => apply quiet_Assert
  | |- quiet (fmapM _ _) => apply quiet_fmapM
  | |- quiet (control_flow_ops_cond _ _ _) => apply quiet_cond
  | |- quiet (bind _ _) => apply quiet_bind; [| intros ?]
  | |- quiet (if ?c then _ else _) => destruct c
  | |- quiet (match ?v with _ => _ end) => destruct v
  end.

Lemma quiet_tf_abs x : quiet (_tf_abs x).
Proof. unfold _tf_abs, math_ops_abs. repeat quiet_step. Qed.

Lemma quiet_tf_float x : quiet (_tf_float x).
Proof.
  unfold _tf_float, string_to_number, math_ops_cast. repeat quiet_step.
Qed.

Lemma quiet_tf_int x base : quiet (_tf_int x base).
Proof.
  unfold _tf_int, string_to_number, math_ops_cast. repeat quiet_step.
Qed.

Lemma quiet_tf_tensor_array_len s : quiet (_tf_tensor_array_len s).
Proof.
  unfold _tf_tensor_array_len, tensor_array_size.
  destruct s; repeat quiet_step.
Qed.

Lemma quiet_tf_tensor_list_len s : quiet (_tf_tensor_list_len s).
Proof. unfold _tf_tensor_list_len, tensor_list_length. repeat quiet_step. Qed.

Lemma quiet_raise_zero_rank_error rank : quiet (raise_zero_rank_error rank).
Proof.
  unfold raise_zero_rank_error, as_string, string_join, constant_under.
  repeat quiet_step.
Qed.

Lemma quiet_tf_tensor_len s : quiet (_tf_tensor_len s).
Proof.
  unfold _tf_tensor_len, array_ops_shape, array_ops_rank, tensor_gt,
    tensor_getitem.
  repeat first [apply quiet_raise_zero_rank_error | quiet_step].
Qed.

Lemma quiet_tf_range a b c : quiet (_tf_range a b c).
Proof. unfold _tf_range. repeat quiet_step. Qed.

Lemma quiet_tf_py_func_print objects kwargs :
  quiet (_tf_py_func_print objects kwargs).
Proof. unfold _tf_py_func_print, wrap_py_func. repeat quiet_step. Qed.

Lemma quiet_tf_dataset_enumerate s start :
  quiet (_tf_dataset_enumerate s start).
Proof. unfold _tf_dataset_enumerate. destruct s; repeat quiet_step. Qed.

Lemma abs_staged x :
  is_tensor x = true ->
  (forall H, quiet (abs_ H x)) /\ host_free (fun H => abs_ H x).
Proof.
  intros Hx. split.
  - intros H. unfold abs_. rewrite Hx. apply quiet_tf_abs.
  - intros H1 H2 w. unfold abs_. rewrite Hx. reflexivity.
Qed.

Lemma float_staged x :
  is_tensor x = true ->
  (forall H, quiet (float_ H x)) /\ host_free (fun H => float_ H x).
Proof.
  intros Hx. split.
  - intros H. unfold float_. rewrite Hx. apply quiet_tf_float.
  - intros H1 H2 w. unfold float_. rewrite Hx. reflexivity.
Qed.

Lemma int_staged x base :
  is_tensor x = true ->
  (forall H, quiet (int_ H x base)) /\ host_free (fun H => int_ H x base).
Proof.
  intros Hx. split.
  - intros H. unfold int_. rewrite Hx. apply quiet_tf_int.
  - intros H1 H2 w. unfold int_. rewrite Hx. reflexivity.
Qed.

Lemma len_staged s :
  is_tensor_array s || is_tensor s = true ->
  (forall H, quiet (len_ H s)) /\ host_free (fun H => len_ H s).
Proof.
  intros Hs. split.
  - intros H. unfold len_.
    destruct (is_tensor_array s); [apply quiet_tf_tensor_array_len |].
    destruct (is_tensor_list s); [apply quiet_tf_tensor_list_len |].
    simpl in Hs. rewrite Hs. apply quiet_tf_tensor_len.
  - intros H1 H2 w. unfold len_.
    destruct (is_tensor_array s); [reflexivity |].
    destruct (is_tensor_list s); [reflexivity |].
    simpl in Hs. rewrite Hs. reflexivity.
Qed.

Lemma range_staged_quiet a b c :
  staged_call [a; b; c] ->
  (forall H, quiet (range_ H a b c)) /\ host_free (fun H => range_ H a b c).
Proof.
  unfold staged_call. intros Hst. split.
  - intros H. unfold range_. rewrite Hst. apply quiet_tf_range.
  - intros H1 H2 w. unfold range_. rewrite Hst. reflexivity.
Qed.

Lemma print_staged objects kwargs :
  staged_call objects ->
  (forall H, quiet (print_ H objects kwargs)) /\
  host_free (fun H => print_ H objects kwargs).
Proof.
  unfold staged_call. intros Hst. split.
  - intros H. unfold print_.
    destruct (negb _); [apply quiet_raise |].
    rewrite Hst. apply quiet_tf_py_func_print.
  - intros H1 H2 w. unfold print_.
    destruct (negb _); [reflexivity |]. rewrite Hst. reflexivity.
Qed.

Lemma enumerate_staged s start :
  is_dataset s = true ->
  (forall H, quiet (enumerate_ H s start)) /\
  host_free (fun H => enumerate_ H s start).
Proof.
  intros Hs. split.
  - intros H. unfold enumerate_. rewrite Hs.
    apply quiet_tf_dataset_enumerate.
  - intros H1 H2 w. unfold enumerate_. rewrite Hs. reflexivity.
Qed.

(** X4.  Whatever the host, an overload on its staged path never consults
    the host and leaves the console alone: whether it returns or raises,
    the graph it leaves is the one it found with operations added at the
    end.  This holds for [abs_], [float_] and [int_] on a symbolic first
    argument, for [len_] on an array buffer or a symbolic array, for
    [range_] and [print_] with some symbolic argument, and for
    [enumerate_] on a dataset. *)
Theorem staged_paths_quiet_and_host_free :
  (forall x, is_tensor x = true ->
     (forall H, quiet (abs_ H x)) /\ host_free (fun H => abs_ H x)) /\
  (forall x, is_tensor x = true ->
     (forall H, quiet (float_ H x)) /\ host_free (fun H => float_ H x)) /\
  (forall x base, is_tensor x = true ->
     (forall H, quiet (int_ H x base)) /\
     host_free (fun H => int_ H x base)) /\
  (forall s, is_tensor_array s || is_tensor s = true ->
     (forall H, quiet (len_ H s)) /\ host_free (fun H => len_ H s)) /\
  (forall a b c, staged_call [a; b; c] ->
     (forall H, quiet (range_ H a b c)) /\
     host_free (fun H => range_ H a b c)) /\
  (forall objects kwargs, staged_call objects ->
     (forall H, quiet (print_ H objects kwargs)) /\
     host_free (fun H => print_ H objects kwargs)) /\
  (forall s start, is_dataset s = true ->
     (forall H, quiet (enumerate_ H s start)) /\
     host_free (fun H => enumerate_ H s start)).
Proof.
  split; [exact abs_staged |]. split; [exact float_staged |].
  split; [exact int_staged |]. split; [exact len_staged |].
  split; [exact range_staged_quiet |]. split; [exact print_staged |].
  exact enumerate_staged.
Qed.

(** [len_] on an array of unknown rank in a world that already holds an
    operation and a printed line: both are still there afterwards. *)
Lemma staged_paths_quiet_and_host_free_witness :
  is_tensor_array (VTensor (placeholder None))
  || is_tensor (VTensor (placeholder None)) = true /\
  extends (World [NPlaceholder "x"] [([VInt 1], ∅)])
    (len_ SmallHost.host (VTensor (placeholder None))
       (World [NPlaceholder "x"] [([VInt 1], ∅)])).1.
Proof.
  split; [reflexivity |].
  exact (proj1 (proj1 (proj2 (proj2 (proj2
           staged_paths_quiet_and_host_free)))
           (VTensor (placeholder None)) eq_refl)
           SmallHost.host (World [NPlaceholder "x"] [([VInt 1], ∅)])).
Defined.

(** ** Length resolution, case by case *)

(** What [len_] does on a generic symbolic array, by its static shape. *)
Lemma len_by_static_shape (H : Host) (t : tensor) (w : world) :
  symbolic_array (VTensor t) ->
  match t_shape t with
  | Some (Some n :: _) => len_ H (VTensor t) w = (w, Ok (VInt n))
  | Some [] =>
      exists msg,
        len_ H (VTensor t) w = (after_shape_query t w, Raise (ValueError msg))
  | Some (None :: _) =>
      exists w',
        len_ H (VTensor t) w = (w', Ok (VTensor (staged_leading_dimension t)))
  | None =>
      exists w', len_ H (VTensor t) w = (w', Ok (VTensor (staged_len_cond t)))
  end.
Proof.
  intros Ht. rewrite len_symbolic_array by exact Ht.
  destruct t as [op dt [[| [n |] ds] |]]; simpl.
  - eexists. reflexivity.
  - unfold _tf_tensor_len, bind, as_tensor, ret, lift. simpl.
    unfold ndims_truthy. simpl.
    destruct (Z.of_nat (S (length ds)) =? 0) eqn:E; [| reflexivity].
    apply Z.eqb_eq in E. lia.
  - unfold _tf_tensor_len, bind, as_tensor, ret, lift. simpl.
    unfold ndims_truthy. simpl.
    destruct (Z.of_nat (S (length ds)) =? 0) eqn:E.
    + apply Z.eqb_eq in E. lia.
    + eexists. reflexivity.
  - eexists. reflexivity.
Qed.

(** X5.  On a generic symbolic array the outcome of [len_] is decided by
    the static shape alone.  It fails at construction exactly when the
    static shape is that of a scalar, and then with a [ValueError]: the
    assertion on the shape query never fires.  It returns a plain integer
    exactly when the rank and the leading dimension are statically known,
    and a staged handle in every other case. *)
Theorem len_outcome (H : Host) (t : tensor) (w : world) :
  symbolic_array (VTensor t) ->
  ((exists e w', len_ H (VTensor t) w = (w', Raise e)) <->
   t_shape t = Some []) /\
  (forall e w', len_ H (VTensor t) w = (w', Raise e) ->
     exists msg, e = ValueError msg) /\
  ((exists n w', len_ H (VTensor t) w = (w', Ok (VInt n))) <->
   exists n ds, t_shape t = Some (Some n :: ds)) /\
  ((exists r w', len_ H (VTensor t) w = (w', Ok (VTensor r))) <->
   t_shape t = None \/ exists ds, t_shape t = Some (None :: ds)).
Proof.
  intros Ht. pose proof (len_by_static_shape H t w Ht) as Hcase.
  destruct (t_shape t) as [[| [n |] ds] |].
  - destruct Hcase as [msg Hlen]. rewrite Hlen. repeat split.
    + by eexists _, _.
    + intros e w' [= _ <-]. by exists msg.
    + intros (n & w' & [=]).
    + intros (n & ds & [=]).
    + intros (r & w' & [=]).
    + intros [[=] | (ds & [=])].
  - rewrite Hcase. repeat split.
    + intros (e & w' & [=]).
    + intros [=].
    + intros e w' [=].
    + intros _. by exists n, ds.
    + intros _. by exists n, w.
    + intros (r & w' & [=]).
    + intros [[=] | (ds' & [=])].
  - destruct Hcase as [w1 Hlen]. rewrite Hlen. repeat split.
    + intros (e & w' & [=]).
    + intros [=].
    + intros e w' [=].
    + intros (n & w' & [=]).
    + intros (n & ds' & [=]).
    + intros _. right. by exists ds.
    + intros _. by eexists _, _.
  - destruct Hcase as [w1 Hlen]. rewrite Hlen. repeat split.
    + intros (e & w' & [=]).
    + intros [=].
    + intros e w' [=].
    + intros (n & w' & [=]).
    + intros (n & ds' & [=]).
    + intros _. by left.
    + intros _. by eexists _, _.
Qed.

(** A scalar array: [len_] fails; an array of shape [(?, 4)]: it does not. *)
Lemma len_outcome_witness :
  symbolic_array (VTensor (placeholder (Some []))) /\
  (exists e w',
     len_ SmallHost.host (VTensor (placeholder (Some []))) world0
     = (w', Raise e)) /\
  ~ (exists e w',
       len_ SmallHost.host (VTensor (placeholder (Some [None; Some 4])))
         world0 = (w', Raise e)).
Proof.
  split; [reflexivity |]. split.
  - apply (proj1 (len_outcome SmallHost.host (placeholder (Some [])) world0
                    eq_refl)). reflexivity.
  - intros Hfail.
    apply (proj1 (len_outcome SmallHost.host
                    (placeholder (Some [None; Some 4])) world0 eq_refl))
      in Hfail.
    discriminate Hfail.
Defined.

(** X6.  The list test of [len_] comes before the array test, and it
    looks at the rank as well as at the element kind.  An array of element
    kind [variant] whose static rank is [0] or unknown is a symbolic list:
    it is measured by the staged list-length operation, also when its
    static shape is that of a scalar, for which the array test would fail.
    An array of element kind [variant] with a known leading dimension is
    no list: its length is the plain integer. *)
Theorem len_specialised_containers (H : Host) (t : tensor) (w : world) :
  t_dtype t = DT_variant ->
  (ndims_truthy (t_shape t) = false ->
   len_ H (VTensor t) w
   = (with_ops w [NTensorListLength t],
      Ok (VTensor (Tensor (NTensorListLength t) DT_int32 (Some []))))) /\
  (forall n ds, t_shape t = Some (Some n :: ds) ->
   len_ H (VTensor t) w = (w, Ok (VInt n))).
Proof.
  intros Ht. split.
  - intros Hrank. unfold len_. simpl.
    rewrite bool_decide_eq_true_2 by exact Ht. rewrite Hrank. reflexivity.
  - intros n ds Hsh.
    assert (Harr : symbolic_array (VTensor t)).
    { unfold symbolic_array, classify. simpl.
      unfold ndims_truthy. rewrite Hsh. simpl.
      rewrite andb_false_r. reflexivity. }
    pose proof (len_by_static_shape H t w Harr) as Hcase.
    rewrite Hsh in Hcase. exact Hcase.
Qed.

(** A symbolic list of static shape [()]: the result is the staged list
    length, not the error of a scalar array. *)
Lemma len_specialised_containers_witness :
  t_dtype (Tensor (NPlaceholder "l") DT_variant (Some [])) = DT_variant /\
  ndims_truthy (t_shape (Tensor (NPlaceholder "l") DT_variant (Some [])))
  = false /\
  (len_ SmallHost.host
     (VTensor (Tensor (NPlaceholder "l") DT_variant (Some []))) world0).2
  = Ok (VTensor (Tensor (NTensorListLength
                           (Tensor (NPlaceholder "l") DT_variant (Some [])))
                        DT_int32 (Some []))).
Proof.
  split; [reflexivity |]. split; [reflexivity |].
  rewrite (proj1 (len_specialised_containers SmallHost.host
                    (Tensor (NPlaceholder "l") DT_variant (Some [])) world0
                    eq_refl) eq_refl).
  reflexivity.
Defined.

(** ** Numeric coercion on the staged path *)


(** ** Evaluation in an ancestor frame *)

Lemma walk_back_ancestor n fr fr' w :
  ancestor n fr = Some fr' ->
  walk_back n (Some fr) w = (w, Ok (Some fr')).
Proof.
  revert fr. induction n as [| n IH]; intros fr Hanc.
  - injection Hanc as ->. reflexivity.
  - destruct fr as [g l [back |]]; simpl in Hanc; [| discriminate].
    simpl. unfold bind. simpl. apply IH, Hanc.
Qed.

Lemma ancestor_depth n fr :
  is_Some (ancestor n fr) <-> (n <= frames_above fr)%nat.
Proof.
  revert fr. induction n as [| n IH]; intros fr.
  - simpl. split; [lia | by eexists].
  - destruct fr as [g l [back |]]; simpl.
    + rewrite IH. lia.
    + split; [intros [x [=]] | lia].
Qed.

(** X8.  When the stack is deep enough, [eval_in_original_context] hands
    the evaluation primitive exactly three arguments: the first supplied
    argument, then the globals and the locals of the frame
    [caller_level_delta + 1] levels above its own, each replaced by the
    second and third supplied argument when there is one.  Arguments
    beyond the third are dropped, the world is not touched before the
    primitive runs, and with no argument at all the call fails with
    [IndexError] without running the primitive. *)
Theorem eval_in_located_frame (f : list value -> M value)
    (args : list value) (caller_level_delta : Z) (currentframe : frame)
    (g l : value) (back : option frame) (w : world) :
  ancestor (Z.to_nat (caller_level_delta + 1)) currentframe
  = Some (Frame g l back) ->
  eval_in_original_context f args caller_level_delta currentframe w
  = match args with
    | [] => (w, Raise (IndexError "tuple index out of range"))
    | a0 :: rest => f [a0; default g (rest !! 0%nat);
                       default l (rest !! 1%nat)] w
    end.
Proof.
  intros Hanc. unfold eval_in_original_context, bind.
  rewrite (walk_back_ancestor _ _ _ w Hanc).
  destruct args as [| a0 [| a1 [| a2 rest]]]; try reflexivity.
  unfold tuple_getitem, ret. simpl.
  replace (Z.of_nat (S (S (S (length rest)))) <? 2) with false
    by (symmetry; apply Z.ltb_ge; lia).
  replace (Z.of_nat (S (S (S (length rest)))) <? 3) with false
    by (symmetry; apply Z.ltb_ge; lia).
  reflexivity.
Qed.

(** The caller binds [x]; only the expression is supplied. *)
Lemma eval_in_located_frame_witness :
  ancestor (Z.to_nat (0 + 1)) caller_binds_x
  = Some (Frame (VDict ∅) (VDict {[ "x" := VInt 1 ]}) None) /\
  eval_in_original_context (fun a => ret (VTuple a)) [VStr "x + 1"] 0
    caller_binds_x world0
  = (world0, Ok (VTuple [VStr "x + 1"; VDict ∅; VDict {[ "x" := VInt 1 ]}])).
Proof.
  split; [reflexivity |].
  rewrite (eval_in_located_frame (fun a => ret (VTuple a)) [VStr "x + 1"] 0
             caller_binds_x (VDict ∅) (VDict {[ "x" := VInt 1 ]}) None
             world0 eq_refl).
  reflexivity.
Defined.

(** X9.  A [caller_level_delta] of [-1] or less makes the loop run zero
    times: the bindings are then those of the evaluator's own frame,
    whatever the stack above it. *)
Theorem eval_negative_delta (f : list value -> M value) (a0 : value)
    (caller_level_delta : Z) (g l : value) (back : option frame)
    (w : world) :
  caller_level_delta <= -1 ->
  eval_in_original_context f [a0] caller_level_delta (Frame g l back) w
  = f [a0; g; l] w.
Proof.
  intros Hneg. unfold eval_in_original_context.
  replace (Z.to_nat (caller_level_delta + 1)) with O by lia.
  reflexivity.
Qed.

Lemma eval_negative_delta_witness :
  -3 <= -1 /\
  eval_in_original_context (fun a => ret (VTuple a)) [VStr "x"] (-3)
    (Frame (VInt 1) (VInt 2) None) world0
  = (world0, Ok (VTuple [VStr "x"; VInt 1; VInt 2])).
Proof.
  split; [lia |].
  exact (eval_negative_delta (fun a => ret (VTuple a)) (VStr "x") (-3)
           (VInt 1) (VInt 2) None world0 ltac:(lia)).
Defined.

(** X10.  The walk succeeds exactly on deep enough stacks: for a
    non-negative [caller_level_delta] it ends on a frame if and only if at
    least [caller_level_delta + 1] frames lie above the evaluator's own,
    and it never changes the world. *)
Theorem walk_back_reaches_frame (caller_level_delta : Z)
    (currentframe : frame) (w : world) :
  0 <= caller_level_delta ->
  ((exists fr, walk_back (Z.to_nat (caller_level_delta + 1))
                 (Some currentframe) w = (w, Ok (Some fr)))
   <-> caller_level_delta + 1 <= Z.of_nat (frames_above currentframe)) /\
  (walk_back (Z.to_nat (caller_level_delta + 1)) (Some currentframe) w).1 = w.
Proof.
  intros Hd.
  set (n := Z.to_nat (caller_level_delta + 1)).
  destruct (decide (n <= frames_above currentframe)%nat) as [Hdeep | Hshallow].
  - destruct (proj2 (ancestor_depth n currentframe) Hdeep) as [fr Hfr].
    pose proof (walk_back_ancestor n currentframe fr w Hfr) as Hwalk.
    rewrite Hwalk. split; [| reflexivity]. split.
    + intros _. unfold n in Hdeep. lia.
    + intros _. by exists fr.
  - destruct (decide (n = S (frames_above currentframe))) as [Heq | Hne].
    + rewrite Heq, walk_back_bottom by reflexivity.
      split; [| reflexivity]. split; [intros [fr [=]] | lia].
    + replace n with (S (S (frames_above currentframe))
                      + (n - S (S (frames_above currentframe))))%nat by lia.
      rewrite walk_back_past by reflexivity.
      split; [| reflexivity]. split; [intros [fr [=]] | lia].
Qed.

Lemma walk_back_reaches_frame_witness :
  0 <= 1 /\
  ~ (exists fr, walk_back (Z.to_nat (1 + 1)) (Some module_level_stack) world0
                = (world0, Ok (Some fr))).
Proof.
  split; [lia |].
  intros Hfr.
  apply (proj1 (walk_back_reaches_frame 1 module_level_stack world0
                  ltac:(lia))) in Hfr.
  simpl in Hfr. lia.
Defined.

(** ** Keyword arguments of the staged print *)

(** X11.  The keyword arguments captured for the staged print always
    contain ['flush'], name no key the caller did not use apart from
    ['flush'], and so stay within the recognized keywords whenever the
    caller's do.  Preparing them a second time changes nothing. *)
Theorem override_kwargs_invariants (kwargs : gmap string value) :
  "flush" ∈ dom (override_kwargs_of kwargs) /\
  dom (override_kwargs_of kwargs) ⊆ dom kwargs ∪ {[ "flush" ]} /\
  (dom kwargs ⊆ recognized_kwargs ->
   dom (override_kwargs_of kwargs) ⊆ recognized_kwargs) /\
  override_kwargs_of (override_kwargs_of kwargs) = override_kwargs_of kwargs.
Proof.
  assert (Hflush : "flush" ∈ dom (override_kwargs_of kwargs)).
  { apply elem_of_dom. rewrite override_kwargs_lookup. simpl.
    destruct (kwargs !! "flush") as [v |]; [| by eexists].
    destruct (is_UNSPECIFIED v); by eexists. }
  assert (Hdom : dom (override_kwargs_of kwargs) ⊆ dom kwargs ∪ {[ "flush" ]}).
  { intros k [v Hv]%elem_of_dom. rewrite override_kwargs_lookup in Hv.
    apply elem_of_union.
    destruct (kwargs !! k) as [u |] eqn:Ek.
    - left. apply elem_of_dom. by eexists.
    - destruct (bool_decide_reflect (k = "flush")) as [-> | Hk];
        [| discriminate].
      right. by apply elem_of_singleton. }
  split; [exact Hflush |]. split; [exact Hdom |]. split.
  - intros Hrec k Hk. apply Hdom in Hk.
    apply elem_of_union in Hk as [Hk | Hk]; [apply Hrec, Hk |].
    apply elem_of_singleton in Hk as ->.
    apply (bool_decide_unpack _). vm_compute. exact I.
  - apply map_eq. intros k.
    rewrite (override_kwargs_lookup (override_kwargs_of kwargs)).
    rewrite !override_kwargs_lookup.
    destruct (kwargs !! k) as [v |].
    + destruct (is_UNSPECIFIED v) eqn:Ev.
      * destruct (bool_decide (k = "flush")); reflexivity.
      * rewrite Ev. reflexivity.
    + destruct (bool_decide (k = "flush")); reflexivity.
Qed.

(** [sep='-', end=UNSPECIFIED] stays within the recognized keywords. *)
Lemma override_kwargs_invariants_witness :
  (dom ({[ "sep" := VStr "-"; "end" := UNSPECIFIED ]} : gmap string value)
   ⊆ recognized_kwargs) /\
  (dom (override_kwargs_of {[ "sep" := VStr "-"; "end" := UNSPECIFIED ]})
   ⊆ recognized_kwargs).
Proof.
  assert (Hkw : dom ({[ "sep" := VStr "-"; "end" := UNSPECIFIED ]}
                      : gmap string value) ⊆ recognized_kwargs).
  { apply (bool_decide_unpack _). vm_compute. exact I. }
  split; [exact Hkw |].
  exact (proj1 (proj2 (proj2 (override_kwargs_invariants _))) Hkw).
Defined.

(** ** Range construction, continued *)

Lemma runs_to_int_number_like runtime_shape a x :
  run_value runtime_shape a = Some (Ok (VInt x)) -> number_like a = true.
Proof. destruct a; simpl; try discriminate; reflexivity. Qed.

Lemma staged_range_accepted args w :
  range_rejects args = None ->
  staged_range args w
  = (with_ops w [NRange args], Ok (VTensor (range_handle args))).
Proof. intros Hacc. unfold staged_range. rewrite Hacc. reflexivity. Qed.

(** X12.  When the graph runs, the clamped bound of a staged [range_] is
    never on the wrong side of the start.  With start and stop, the stop
    handed to the staged range runs to the larger of the two, so it is at
    least the start and is the stop itself whenever the range was well
    formed.  With stop alone it runs to the larger of the stop and [0]. *)
Theorem range_clamp_at_run_time (H : Host) (runtime_shape : tensor -> list Z)
    (a b : value) (x y : Z) (w : world) :
  run_value runtime_shape a = Some (Ok (VInt x)) ->
  run_value runtime_shape b = Some (Ok (VInt y)) ->
  (staged_call [a; b] -> supplied b ->
   exists stop,
     (range_ H a b UNSPECIFIED w).2
     = Ok (VTensor (range_handle [a; VTensor stop])) /\
     run_tensor runtime_shape stop = Some (Ok (VInt (Z.max x y))) /\
     x <= Z.max x y /\ (x <= y -> Z.max x y = y)) /\
  (staged_call [a] ->
   exists stop,
     (range_ H a UNSPECIFIED UNSPECIFIED w).2
     = Ok (VTensor (range_handle [VTensor stop])) /\
     run_tensor runtime_shape stop = Some (Ok (VInt (Z.max x 0))) /\
     0 <= Z.max x 0 /\ (0 <= x -> Z.max x 0 = x)).
Proof.
  intros Hx Hy. split.
  - intros Hst Hb. exists (maximum_handle a b).
    rewrite range_staged
      by exact (staged_call_drop_UNSPECIFIED [a; b] Hst).
    rewrite tf_range_two by exact Hb.
    rewrite staged_range_accepted
      by exact (proj1 (clamped_range_accepted a b
                         (runs_to_int_number_like runtime_shape a x Hx))).
    split; [reflexivity |].
    split; [exact (run_maximum_handle runtime_shape a b x y Hx Hy) |]. lia.
  - intros Hst. exists (maximum_handle a (VInt 0)).
    rewrite range_staged
      by exact (staged_call_drop_UNSPECIFIED [a; UNSPECIFIED]
                  (staged_call_drop_UNSPECIFIED [a] Hst)).
    rewrite tf_range_one.
    rewrite staged_range_accepted
      by exact (proj2 (clamped_range_accepted a (VInt 0)
                         (runs_to_int_number_like runtime_shape a x Hx))).
    split; [reflexivity |].
    split; [exact (run_maximum_handle runtime_shape a (VInt 0) x 0 Hx
                     eq_refl) |]. lia.
Qed.

(** [range_(5, 2)] with a staged constant [5]: the stop runs to [5], so the
    range is empty instead of ill formed. *)
Lemma range_clamp_at_run_time_witness :
  run_value (fun _ => [])
    (VTensor (Tensor (NConst (VInt 5) []) DT_int32 (Some [])))
  = Some (Ok (VInt 5)) /\
  run_value (fun _ => []) (VInt 2) = Some (Ok (VInt 2)) /\
  staged_call [VTensor (Tensor (NConst (VInt 5) []) DT_int32 (Some []));
               VInt 2] /\
  supplied (VInt 2) /\
  exists stop,
    (range_ SmallHost.host
       (VTensor (Tensor (NConst (VInt 5) []) DT_int32 (Some []))) (VInt 2)
       UNSPECIFIED world0).2
    = Ok (VTensor (range_handle
                     [VTensor (Tensor (NConst (VInt 5) []) DT_int32
                                      (Some []));
                      VTensor stop])) /\
    run_tensor (fun _ => []) stop = Some (Ok (VInt 5)).
Proof.
  split; [reflexivity |]. split; [reflexivity |].
  split; [reflexivity |]. split; [reflexivity |].
  destruct (proj1 (range_clamp_at_run_time SmallHost.host (fun _ => [])
                     (VTensor (Tensor (NConst (VInt 5) []) DT_int32
                                      (Some [])))
                     (VInt 2) 5 2 world0 eq_refl eq_refl)
              eq_refl eq_refl) as (stop & Hrange & Hrun & _).
  exists stop. split; [exact Hrange | exact Hrun].
Defined.



(** ** enumerate_ *)

(** On a dataset [enumerate_] answers with the dataset's own enumeration,
    and the answer is again a dataset, so a second [enumerate_] nests on
    it in the same way. *)
Lemma enumerate_dataset (H : Host) (d : node) (start start' : value)
    (w : world) :
  enumerate_ H (VDataset d) start w
  = (w, Ok (VDataset (NDatasetEnumerate d start))) /\
  (s <- enumerate_ H (VDataset d) start ;; enumerate_ H s start') w
  = (w, Ok (VDataset (NDatasetEnumerate (NDatasetEnumerate d start) start'))).
Proof. split; reflexivity. Qed.

(** ** The print wrapper *)



(** ** The sentinel and int_ *)

(** X15.  [int_] looks at its first argument only and keeps the sentinel
    to itself.  With a native first argument the host [int] is called on
    the supplied arguments alone, never on [UNSPECIFIED], and a symbolic
    base does not move the call to the staged path: it is handed to the
    host as it is.  With a symbolic first argument an omitted base is
    accepted just as base 10 is. *)
Theorem int_keeps_sentinel (H : Host) (x base : value) (w : world) :
  supplied x ->
  (is_tensor x = false ->
   exists args,
     Forall supplied args /\ int_ H x base w = builtin_int H args w) /\
  (is_tensor x = false -> is_tensor base = true ->
   int_ H x base w = builtin_int H [x; base] w) /\
  (is_tensor x = true ->
   int_ H x UNSPECIFIED w = int_ H x (VInt 10) w).
Proof.
  unfold supplied. intros Hx. split; [| split].
  - intros Hnative. unfold int_, _py_int. rewrite Hnative.
    destruct (is_UNSPECIFIED base) eqn:Eb.
    + exists [x]. split; [| reflexivity]. by repeat constructor.
    + exists [x; base]. split; [| reflexivity]. by repeat constructor.
  - intros Hnative Hbase. unfold int_, _py_int. rewrite Hnative.
    destruct base; try discriminate. reflexivity.
  - intros Hstaged. unfold int_. rewrite Hstaged. reflexivity.
Qed.

(** [int_(7)] on the small host: the host [int] gets [7] alone. *)
Lemma int_keeps_sentinel_witness :
  supplied (VInt 7) /\
  is_tensor (VInt 7) = false /\
  exists args,
    Forall supplied args /\
    int_ SmallHost.host (VInt 7) UNSPECIFIED world0
    = builtin_int SmallHost.host args world0.
Proof.
  split; [reflexivity |]. split; [reflexivity |].
  exact (proj1 (int_keeps_sentinel SmallHost.host (VInt 7) UNSPECIFIED world0
                  eq_refl) eq_refl).
Defined.
